(** * Fast Modbus bus scanner (scripts/scanner.py)

    A shallow embedding of the scanner script and the properties of its
    checksum, frame codec, response processor, baud-rate sweep and device
    table.

    Conventions.
    - A Python [bytes] object is a [list byte]: every element is an integer
      in [range(256)] by construction.  Python integers are [Z].
    - A call either returns or raises; the loop [while True] of [main] is
      unrolled a bounded number of times, the bound being an extra argument.
    - Everything the script prints, and every operation on the serial port,
      is appended to a chronological trace. *)

From Stdlib Require Import String Ascii ZArith List Lia Bool Sorted.
From Stdlib.Strings Require Import Byte.
Import ListNotations.
Open Scope Z_scope.

(** ** Python values and builtins used by the script *)

Definition byte_val (b : byte) : Z := Z.of_N (Byte.to_N b).

(** Exceptions that the modelled builtins can raise. *)
Inductive exn : Type :=
| IndexError
| ValueError
| OverflowError
| SerialException.

(** Result of running a piece of the script.  [OutOfFuel] only comes from
    the bounded unrolling of [while True]. *)
Inductive outcome (A : Type) : Type :=
| Ok (a : A)
| Raise (e : exn)
| OutOfFuel.
Arguments Ok {A} a.
Arguments Raise {A} e.
Arguments OutOfFuel {A}.

(** Sequencing of calls that may raise. *)
Definition and_next {A B} (r : outcome A) (k : A -> outcome B) : outcome B :=
  match r with
  | Ok a => k a
  | Raise e => Raise e
  | OutOfFuel => OutOfFuel
  end.

Module Py.

(** [l[i]] for a non-negative literal index. *)
Definition index {A} (l : list A) (i : nat) : outcome A :=
  match nth_error l i with
  | Some x => Ok x
  | None => Raise IndexError
  end.

(** [l[:-2]]: everything but the last two elements (empty when there are
    fewer than two). *)
Definition drop_last2 {A} (l : list A) : list A :=
  firstn (length l - 2) l.

(** [l[-2:]]: the last two elements (the whole sequence when shorter). *)
Definition last2 {A} (l : list A) : list A :=
  skipn (length l - 2) l.

(** [l[i:j]] for non-negative literal bounds. *)
Definition slice {A} (i j : nat) (l : list A) : list A :=
  firstn (j - i) (skipn i l).

(** [int.from_bytes(bs, 'little')] on a [bytes] object. *)
Definition int_from_bytes_little (bs : list byte) : Z :=
  fold_right (fun b acc => byte_val b + 256 * acc) 0 bs.

(** [int.from_bytes(xs, 'big')] on a list of integers: every element must
    be in [range(256)]. *)
Fixpoint int_from_bytes_big_acc (acc : Z) (xs : list Z) : outcome Z :=
  match xs with
  | [] => Ok acc
  | x :: xs' =>
      if (0 <=? x) && (x <? 256)
      then int_from_bytes_big_acc (acc * 256 + x) xs'
      else Raise ValueError
  end.
Definition int_from_bytes_big (xs : list Z) : outcome Z :=
  int_from_bytes_big_acc 0 xs.

(** [bytes([x])] for one integer. *)
Definition byte_of_int (x : Z) : outcome byte :=
  if (0 <=? x) && (x <? 256) then
    match Byte.of_N (Z.to_N x) with
    | Some b => Ok b
    | None => Raise ValueError
    end
  else Raise ValueError.

(** [n.to_bytes(2, 'little')]. *)
Definition to_bytes_2_little (n : Z) : outcome (list byte) :=
  if (0 <=? n) && (n <? 65536) then
    match Byte.of_N (Z.to_N (n mod 256)), Byte.of_N (Z.to_N (n / 256)) with
    | Some lo, Some hi => Ok [lo; hi]
    | _, _ => Raise OverflowError
    end
  else Raise OverflowError.

(** One upper-case hexadecimal digit. *)
Definition hex_digit (d : Z) : ascii :=
  if d <? 10 then ascii_of_nat (Z.to_nat (48 + d))
  else ascii_of_nat (Z.to_nat (55 + d)).

(** [f"0x{b:02X}"] for an element of a [bytes] object. *)
Definition format_0x02X (b : byte) : string :=
  String "0" (String "x"
    (String (hex_digit (byte_val b / 16))
      (String (hex_digit (byte_val b mod 16)) EmptyString))).

(** Value of a hexadecimal digit, either case. *)
Definition hex_value (c : ascii) : option Z :=
  let n := Z.of_nat (nat_of_ascii c) in
  if (48 <=? n) && (n <=? 57) then Some (n - 48)
  else if (65 <=? n) && (n <=? 70) then Some (n - 55)
  else if (97 <=? n) && (n <=? 102) then Some (n - 87)
  else None.

Fixpoint hex_digits_acc (acc : Z) (s : string) : option Z :=
  match s with
  | EmptyString => Some acc
  | String c s' =>
      match hex_value c with
      | Some d => hex_digits_acc (acc * 16 + d) s'
      | None => None
      end
  end.

(** [int(s, 16)] on an unsigned literal with an optional [0x] / [0X]
    prefix.  Signs, surrounding blanks and digit-group underscores, which
    Python also accepts, do not occur in the strings the script builds and
    are rejected here. *)
Definition int_base16 (s : string) : outcome Z :=
  let digits :=
    match s with
    | String "0" (String "x" rest) => rest
    | String "0" (String "X" rest) => rest
    | _ => s
    end in
  match digits with
  | EmptyString => Raise ValueError
  | _ =>
      match hex_digits_acc 0 digits with
      | Some n => Ok n
      | None => Raise ValueError
      end
  end.

End Py.

(** ** Constants *)

Definition BROADCAST_ADDRESS : Z := 0xFD.
Definition EXTENDED_FUNCTION_CODE : Z := 0x46.
Definition START_SCAN_SUBCOMMAND : Z := 0x01.
Definition CONTINUE_SCAN_SUBCOMMAND : Z := 0x02.
Definition END_SCAN_SUBCOMMAND : Z := 0x04.
Definition RESPONSE_SUBCOMMAND : Z := 0x03.

Definition BAUD_RATES : list Z :=
  [115200; 57600; 38400; 19200; 9600; 4800; 2400; 1200].

(** ** Checksum *)

(** Body of [for _ in range(8)]. *)
Definition crc_shift (crc : Z) : Z :=
  if negb (Z.land crc 1 =? 0)
  then Z.lxor (Z.shiftr crc 1) 0xA001
  else Z.shiftr crc 1.

(** Body of [for pos in data]. *)
Definition crc_update (crc : Z) (pos : byte) : Z :=
  Nat.iter 8 crc_shift (Z.lxor crc (byte_val pos)).

Definition calculate_crc (data : list byte) : Z :=
  fold_left crc_update data 0xFFFF.

(** The CRC16/MODBUS reference, written after the specification's wording:
    the accumulator starts at 0xFFFF; each byte is XORed into it and is
    followed by eight rounds, each halving the accumulator and XORing
    0xA001 into the result when the bit shifted out was set. *)
Module Reference.

Definition round (acc : Z) : Z :=
  let shifted := acc / 2 in
  if Z.odd acc then Z.lxor shifted 0xA001 else shifted.

Definition rounds8 (acc : Z) : Z :=
  round (round (round (round (round (round (round (round acc))))))).

Fixpoint feed (acc : Z) (bs : list byte) : Z :=
  match bs with
  | [] => acc
  | b :: bs' => feed (rounds8 (Z.lxor acc (byte_val b))) bs'
  end.

Definition crc16_modbus (bs : list byte) : Z := feed 0xFFFF bs.

End Reference.

(** ** Observable behaviour *)

(** The lines the script prints.  Each constructor stands for one [print]
    call of the source; the arguments are the values interpolated into it. *)
Inductive line : Type :=
| MsgNotAResponse
    (* parse_and_print_response: "Некорректный ответ, игнорируем его." *)
| MsgBadRecordSize
    (* parse_and_print_response:
       "Неверный размер ответа для разбора серийнного номера и модбас адреса." *)
| TableHeader
    (* "| #    | Serial         | Slave ID   |" *)
| TableRule
    (* "|------|----------------|------------|" *)
| TableRow (index serial_number modbus_address : Z)
    (* f"| {device_counter[0]:<4} | {serial_number:<14} | {modbus_address:<10} |" *)
| MsgScanFinished
    (* process_response, twice: "Сканирование завершено." *)
| MsgCrcError
    (* process_response: "Ошибка контрольной суммы ответа." *)
| MsgCrcDump (hex_array : list string)
    (* process_response:
       "Целиком ответ устройства (без контрольной суммы):", hex_array *)
| MsgDebugAnswer (hex_array : list string)
    (* process_response, under --debug: "Ответ устройства:", hex_array *)
| MsgIgnored
    (* process_response: "Получен некорректный ответ, игнорируем его." *)
| MsgScanning (baud_rate : Z)
    (* main: f"Сканирую шину на скорости {baud_rate} бод..." *)
| MsgPortError (baud_rate : Z).
    (* main: f"Ошибка открытия порта с скоростью {baud_rate} бод: {e}";
       the text of the exception is left out *)

Inductive event : Type :=
| Print (l : line)
| SerialOpen (port : string) (baud_rate : Z)   (* serial.Serial(port, baud_rate, timeout=1) *)
| SerialWrite (baud_rate : Z) (command : list byte)
| SerialRead (baud_rate : Z) (raw : list byte)
| SerialClose (baud_rate : Z).

(** What the script can observe of the outside world: whether the port
    opens at a rate, and what [ser.read(ser.inWaiting())] returns after the
    [n]-th command written since the port was opened at that rate ([None]
    when writing or reading raises [SerialException]). *)
Record serial_bus : Type := {
  can_open : string -> Z -> bool;
  exchange : Z -> nat -> list byte -> option (list byte)
}.

(** The mutable state of a run: the cell behind the default argument
    [device_counter=[0]], which is created once and shared by all calls; the
    number of commands written on the currently open port; the trace. *)
Record world : Type := {
  device_counter : Z;
  written : nat;
  trace : list event
}.

Definition initial_world : world :=
  {| device_counter := 0; written := 0; trace := [] |}.

(** Computations over the state that return, raise or run out of fuel. *)
Definition M (A : Type) : Type := world -> outcome A * world.

Definition ret {A} (a : A) : M A := fun w => (Ok a, w).

Definition bind {A B} (m : M A) (k : A -> M B) : M B :=
  fun w =>
    match m w with
    | (Ok a, w') => k a w'
    | (Raise e, w') => (Raise e, w')
    | (OutOfFuel, w') => (OutOfFuel, w')
    end.

Declare Scope py_scope.
Delimit Scope py_scope with py.
Notation "x <- m ;; k" := (bind m (fun x => k))
  (at level 61, m at next level, right associativity) : py_scope.
Notation "m ;; k" := (bind m (fun _ => k))
  (at level 61, right associativity) : py_scope.
Open Scope py_scope.

(** A call of a builtin inside a computation. *)
Definition call {A} (r : outcome A) : M A := fun w => (r, w).

Definition emit (e : event) : M unit :=
  fun w => (Ok tt, {| device_counter := device_counter w;
                      written := written w;
                      trace := trace w ++ [e] |}).

Definition print (l : line) : M unit := emit (Print l).

(** [try: body except serial.SerialException: handler]. *)
Definition try_except_serial {A} (body : M A) (handler : M A) : M A :=
  fun w =>
    match body w with
    | (Raise SerialException, w') => handler w'
    | r => r
    end.

(** ** Frame codec *)

(** [bytes([broadcast, function_code, subcommand])] converts the three
    integers in turn. *)
Definition create_command (broadcast function_code subcommand : Z)
  : outcome (list byte) :=
  and_next (Py.byte_of_int broadcast) (fun b0 =>
  and_next (Py.byte_of_int function_code) (fun b1 =>
  and_next (Py.byte_of_int subcommand) (fun b2 =>
    let command := [b0; b1; b2] in
    let crc := calculate_crc command in
    and_next (Py.to_bytes_2_little crc) (fun tail =>
    Ok (command ++ tail))))).

(** The filter of [send_command]: [bytes(b for b in response if b != 0xFF)]. *)
Definition denoise (response : list byte) : list byte :=
  filter (fun b => negb (byte_val b =? 0xFF)) response.

(** [ser] is the rate the port was opened at.  The pause of 0.1 s between
    writing and reading has no counterpart here. *)
Definition send_command (bus : serial_bus) (ser : Z) (command : list byte)
  : M (list byte) :=
  fun w =>
    let w1 := {| device_counter := device_counter w;
                 written := S (written w);
                 trace := trace w ++ [SerialWrite ser command] |} in
    match exchange bus ser (written w) command with
    | None => (Raise SerialException, w1)
    | Some response =>
        (Ok (denoise response),
         {| device_counter := device_counter w1;
            written := written w1;
            trace := trace w1 ++ [SerialRead ser response] |})
    end.

Definition bytes_to_hex_array (byte_array : list byte) : list string :=
  map Py.format_0x02X (Py.drop_last2 byte_array).

Definition calculate_response_crc (response : list byte) : Z :=
  calculate_crc (Py.drop_last2 response).

(** [[int(hex_str, 16) for hex_str in xs]]. *)
Fixpoint ints_base16 (xs : list string) : outcome (list Z) :=
  match xs with
  | [] => Ok []
  | s :: xs' =>
      and_next (Py.int_base16 s) (fun n =>
      and_next (ints_base16 xs') (fun ns =>
      Ok (n :: ns)))
  end.

Definition increment_counter : M Z :=
  fun w => (Ok (device_counter w + 1),
            {| device_counter := device_counter w + 1;
               written := written w;
               trace := trace w |}).

Definition parse_and_print_response (hex_array : list string) : M unit :=
  third <- call (Py.index hex_array 2) ;;
  third_value <- call (Py.int_base16 third) ;;
  if negb (third_value =? RESPONSE_SUBCOMMAND) then
    print MsgNotAResponse
  else if negb (Nat.eqb (length hex_array) 8) then
    print MsgBadRecordSize
  else
    serial_number_bytes <- call (ints_base16 (Py.slice 3 7 hex_array)) ;;
    serial_number <- call (Py.int_from_bytes_big serial_number_bytes) ;;
    last <- call (Py.index hex_array 7) ;;
    modbus_address <- call (Py.int_base16 last) ;;
    counter <- increment_counter ;;
    (if counter =? 1 then print TableHeader ;; print TableRule else ret tt) ;;
    print (TableRow counter serial_number modbus_address).

(** Equality test [response[i] == constant]. *)
Definition byte_at_is (response : list byte) (i : nat) (constant : Z) : M bool :=
  b <- call (Py.index response i) ;;
  ret (byte_val b =? constant).

(** [a and b] and [a or b] evaluate [b] only when needed. *)
Definition and_then (a b : M bool) : M bool :=
  x <- a ;; if x then b else ret false.
Definition or_else (a b : M bool) : M bool :=
  x <- a ;; if x then ret true else b.

(** [None] is the Python value [None]. *)
Definition process_response (response : option (list byte)) (debug : bool)
  : M bool :=
  match response with
  | None => print MsgScanFinished ;; ret true
  | Some response =>
      if Nat.eqb (length response) 0 then
        print MsgScanFinished ;; ret true
      else
        let received_crc := Py.int_from_bytes_little (Py.last2 response) in
        let calculated_crc := calculate_response_crc response in
        if negb (received_crc =? calculated_crc) then
          print MsgCrcError ;;
          print (MsgCrcDump (bytes_to_hex_array response)) ;;
          ret false
        else
          known <- and_then (byte_at_is response 0 BROADCAST_ADDRESS)
                     (and_then (byte_at_is response 1 EXTENDED_FUNCTION_CODE)
                        (or_else (byte_at_is response 2 RESPONSE_SUBCOMMAND)
                                 (byte_at_is response 2 END_SCAN_SUBCOMMAND))) ;;
          if known then
            is_end <- byte_at_is response 2 END_SCAN_SUBCOMMAND ;;
            if is_end then
              print MsgScanFinished ;; ret true
            else
              let hex_array := bytes_to_hex_array response in
              (if debug then print (MsgDebugAnswer hex_array) else ret tt) ;;
              parse_and_print_response hex_array ;;
              ret false
          else
            print MsgIgnored ;; ret false
  end.

(** ** The sweep *)

(** [serial.Serial(port, baud_rate, timeout=1)]: the attempt is recorded,
    then the port is open with nothing written yet, or the constructor
    raises. *)
Definition serial_open (bus : serial_bus) (port : string) (baud_rate : Z)
  : M Z :=
  fun w =>
    let w1 := {| device_counter := device_counter w;
                 written := 0;
                 trace := trace w ++ [SerialOpen port baud_rate] |} in
    if can_open bus port baud_rate then (Ok baud_rate, w1)
    else (Raise SerialException, w1).

Definition serial_close (ser : Z) : M unit := emit (SerialClose ser).

(** The loop [while True] that follows a start-scan answer which did not
    stop the scan, unrolled at most [fuel] times. *)
Fixpoint continue_scan (fuel : nat) (bus : serial_bus) (ser : Z) (debug : bool)
  : M unit :=
  match fuel with
  | O => fun w => (OutOfFuel, w)
  | S fuel' =>
      continue_scan_command <-
        call (create_command BROADCAST_ADDRESS EXTENDED_FUNCTION_CODE
                CONTINUE_SCAN_SUBCOMMAND) ;;
      response <- send_command bus ser continue_scan_command ;;
      stop <- process_response (Some response) debug ;;
      if stop then ret tt else continue_scan fuel' bus ser debug
  end.

(** Body of [for baud_rate in BAUD_RATES]. *)
Definition scan_at (fuel : nat) (bus : serial_bus) (port : string)
    (debug : bool) (baud_rate : Z) : M unit :=
  print (MsgScanning baud_rate) ;;
  try_except_serial
    (ser <- serial_open bus port baud_rate ;;
     start_scan_command <-
       call (create_command BROADCAST_ADDRESS EXTENDED_FUNCTION_CODE
               START_SCAN_SUBCOMMAND) ;;
     response <- send_command bus ser start_scan_command ;;
     stop <- process_response (Some response) debug ;;
     (if negb stop then continue_scan fuel bus ser debug else ret tt) ;;
     serial_close ser)
    (print (MsgPortError baud_rate)).

Fixpoint for_each {A} (xs : list A) (body : A -> M unit) : M unit :=
  match xs with
  | [] => ret tt
  | x :: xs' => body x ;; for_each xs' body
  end.

(** [port] and [debug] are the parsed command-line arguments. *)
Definition main (fuel : nat) (bus : serial_bus) (port : string) (debug : bool)
  : M unit :=
  for_each BAUD_RATES (scan_at fuel bus port debug).

(** ** Projections of a trace *)


Definition written_at (baud_rate : Z) (t : list event) : list (list byte) :=
  flat_map (fun e => match e with
                     | SerialWrite r c => if r =? baud_rate then [c] else []
                     | _ => []
                     end) t.

(** Sequence numbers of the table rows, in printing order. *)
Definition row_numbers (t : list event) : list Z :=
  flat_map (fun e => match e with Print (TableRow i _ _) => [i] | _ => [] end) t.

Definition header_count (t : list event) : nat :=
  length (filter (fun e => match e with Print TableHeader => true | _ => false end) t).

(** The devices (serial number, bus address) reported in a trace. *)
Definition devices (t : list event) : list (Z * Z) :=
  flat_map (fun e => match e with Print (TableRow _ s a) => [(s, a)] | _ => [] end) t.

(** [1; 2; ...; n]. *)
Definition one_to (n : nat) : list Z := map Z.of_nat (seq 1 n).

(** ** Auxiliary notions used in the statements *)

(** [s] is obtained from [l] by deleting elements, the others staying in
    their order. *)
Inductive subseq {A} : list A -> list A -> Prop :=
| subseq_nil : subseq [] []
| subseq_skip x s l : subseq s l -> subseq s (x :: l)
| subseq_keep x s l : subseq s l -> subseq (x :: s) (x :: l).

Definition no_ff (bs : list byte) : Prop :=
  Forall (fun b => byte_val b <> 0xFF) bs.

(** Number of bytes equal to 0xFF. *)
Definition count_ff (bs : list byte) : nat :=
  length (filter (fun b => byte_val b =? 0xFF) bs).

(** The declared checksum of an answer agrees with the computed one. *)
Definition crc_matches (response : list byte) : Prop :=
  Py.int_from_bytes_little (Py.last2 response) = calculate_response_crc response.

(** The answer starts with the three given values. *)
Definition has_header (response : list byte) (b0 b1 b2 : Z) : Prop :=
  exists x0 x1 x2 rest,
    response = x0 :: x1 :: x2 :: rest /\
    byte_val x0 = b0 /\ byte_val x1 = b1 /\ byte_val x2 = b2.

(** The state after printing some lines. *)
Definition log (ls : list line) (w : world) : world :=
  {| device_counter := device_counter w;
     written := written w;
     trace := trace w ++ map Print ls |}.

(** The lines printed for a decoded device when the counter was [c]:
    the header before the very first row, then the row. *)
Definition device_lines (c serial_number modbus_address : Z) : list line :=
  (if c + 1 =? 1 then [TableHeader; TableRule] else [])
  ++ [TableRow (c + 1) serial_number modbus_address].

Definition debug_lines (debug : bool) (hex_array : list string) : list line :=
  if debug then [MsgDebugAnswer hex_array] else [].

(** The state after a device was reported. *)
Definition reported (debug : bool) (hex_array : list string)
    (serial_number modbus_address : Z) (w : world) : world :=
  {| device_counter := device_counter w + 1;
     written := written w;
     trace := trace w ++
              map Print (debug_lines debug hex_array ++
                         device_lines (device_counter w) serial_number
                           modbus_address) |}.

(** Big-endian value of four bytes. *)
Definition be32 (s0 s1 s2 s3 : byte) : Z :=
  ((byte_val s0 * 256 + byte_val s1) * 256 + byte_val s2) * 256 + byte_val s3.

(** The ways [process_response] can treat a sequence of bytes. *)
Inductive verdict : Type :=
| ScanComplete
| ChecksumMismatch
| UnrecognizedFrame
| ScanEnded
| MalformedDeviceRecord
| DeviceFound (serial_number modbus_address : Z).

Definition crc_matchesb (response : list byte) : bool :=
  Py.int_from_bytes_little (Py.last2 response) =? calculate_response_crc response.

(** The treatment of each sequence of bytes, read off the branches of
    [process_response] and [parse_and_print_response]; that the two functions
    follow it is [process_response_classify] below. *)
Definition classify (response : list byte) : verdict :=
  match response with
  | [] => ScanComplete
  | _ :: _ =>
      if negb (crc_matchesb response) then ChecksumMismatch
      else
        match response with
        | x0 :: x1 :: x2 :: rest =>
            if (byte_val x0 =? BROADCAST_ADDRESS)
               && (byte_val x1 =? EXTENDED_FUNCTION_CODE)
            then
              if byte_val x2 =? END_SCAN_SUBCOMMAND then ScanEnded
              else if byte_val x2 =? RESPONSE_SUBCOMMAND then
                match rest with
                | [s0; s1; s2; s3; a; _; _] =>
                    DeviceFound (be32 s0 s1 s2 s3) (byte_val a)
                | _ => MalformedDeviceRecord
                end
              else UnrecognizedFrame
            else UnrecognizedFrame
        | _ => UnrecognizedFrame
        end
  end.

(** Result and final state that go with a verdict. *)
Definition conclude (v : verdict) (response : list byte) (debug : bool)
    (w : world) : outcome bool * world :=
  match v with
  | ScanComplete | ScanEnded => (Ok true, log [MsgScanFinished] w)
  | ChecksumMismatch =>
      (Ok false, log [MsgCrcError; MsgCrcDump (bytes_to_hex_array response)] w)
  | UnrecognizedFrame => (Ok false, log [MsgIgnored] w)
  | MalformedDeviceRecord =>
      (Ok false,
       log (debug_lines debug (bytes_to_hex_array response) ++ [MsgBadRecordSize]) w)
  | DeviceFound serial_number modbus_address =>
      (Ok false,
       reported debug (bytes_to_hex_array response) serial_number modbus_address w)
  end.


(** The bytes of a command, should building it raise. *)
Definition command_bytes (subcommand : Z) : list byte :=
  match create_command BROADCAST_ADDRESS EXTENDED_FUNCTION_CODE subcommand with
  | Ok c => c
  | _ => []
  end.

(** What each verdict says about the answer.  The six descriptions exclude
    one another, so each of them also forces its verdict. *)
Definition verdict_means (v : verdict) (r : list byte) : Prop :=
  match v with
  | ScanComplete => r = []
  | ChecksumMismatch => r <> [] /\ ~ crc_matches r
  | ScanEnded => crc_matches r /\ has_header r 0xFD 0x46 0x04
  | UnrecognizedFrame =>
      r <> [] /\ crc_matches r /\
      ~ has_header r 0xFD 0x46 0x03 /\ ~ has_header r 0xFD 0x46 0x04
  | MalformedDeviceRecord =>
      crc_matches r /\ has_header r 0xFD 0x46 0x03 /\ length r <> 10%nat
  | DeviceFound serial_number modbus_address =>
      crc_matches r /\
      exists x0 x1 x2 s0 s1 s2 s3 a c0 c1,
        r = [x0; x1; x2; s0; s1; s2; s3; a; c0; c1] /\
        byte_val x0 = 0xFD /\ byte_val x1 = 0x46 /\ byte_val x2 = 0x03 /\
        serial_number = be32 s0 s1 s2 s3 /\ modbus_address = byte_val a
  end.

(** The value of [response[i]], if there is one. *)
Definition byte_at (response : list byte) (i : nat) : option Z :=
  option_map byte_val (nth_error response i).

(** The value [process_response] returns on an answer; it depends neither on
    the state nor on the debug flag. *)
Definition stops (response : list byte) : bool :=
  match fst (process_response (Some response) false initial_world) with
  | Ok stop => stop
  | _ => false
  end.



(** Events other than the lines of the device table. *)
Definition table_free (e : event) : bool :=
  match e with
  | Print TableHeader | Print TableRule | Print (TableRow _ _ _) => false
  | _ => true
  end.

(** The device table of a state is well numbered: the rows carry the numbers
    1, 2, ... up to the counter, the header was printed once if there is a
    row and never otherwise, and the header, the rule and row 1 come
    together, before any other row. *)
Definition table_numbered (w : world) : Prop :=
  0 <= device_counter w /\
  row_numbers (trace w) = one_to (Z.to_nat (device_counter w)) /\
  header_count (trace w) = (if device_counter w =? 0 then 0%nat else 1%nat) /\
  (0 < device_counter w ->
   exists pre s a post,
     trace w = pre ++ [Print TableHeader; Print TableRule; Print (TableRow 1 s a)]
                   ++ post /\
     row_numbers pre = []).

(** Successive calls of [process_response], one per answer. *)
Definition process_all (responses : list (list byte)) (debug : bool) : M unit :=
  for_each responses (fun r => process_response (Some r) debug ;; ret tt).

(** The answer is decoded into a device. *)
Definition is_device (response : list byte) : bool :=
  match classify response with
  | DeviceFound _ _ => true
  | _ => false
  end.

(** What follows the opening of the port in the body of [try]. *)
Definition session (fuel : nat) (bus : serial_bus) (debug : bool) (ser : Z)
  : M unit :=
  start_scan_command <-
    call (create_command BROADCAST_ADDRESS EXTENDED_FUNCTION_CODE
            START_SCAN_SUBCOMMAND) ;;
  response <- send_command bus ser start_scan_command ;;
  stop <- process_response (Some response) debug ;;
  (if negb stop then continue_scan fuel bus ser debug else ret tt) ;;
  serial_close ser.

(** The state in which the session at a rate starts. *)
Definition opened (port : string) (baud_rate : Z) (w : world) : world :=
  {| device_counter := device_counter w;
     written := 0;
     trace := trace w ++ [Print (MsgScanning baud_rate);
                          SerialOpen port baud_rate] |}.

(** ** Relations between states *)

(** How the state moves: by an event outside the device table, or by the
    report of one device. *)
Inductive advances : world -> world -> Prop :=
| adv_refl w : advances w w
| adv_event w e n :
    table_free e = true ->
    advances w {| device_counter := device_counter w;
                  written := n;
                  trace := trace w ++ [e] |}
| adv_device w s a :
    advances w {| device_counter := device_counter w + 1;
                  written := written w;
                  trace := trace w ++
                           map Print (device_lines (device_counter w) s a) |}
| adv_trans w1 w2 w3 : advances w1 w2 -> advances w2 w3 -> advances w1 w3.

(** Every run of [m] takes a state to one related to it by [R]. *)
Definition respects (R : world -> world -> Prop) {A} (m : M A) : Prop :=
  forall w, R w (snd (m w)).

(** Every run of [m] advances the state. *)
Definition steady {A} (m : M A) : Prop := respects advances m.




(** ** Auxiliary notions for the further properties *)

(** Lines that [process_response] can print. *)
Definition answer_line (l : line) : Prop :=
  match l with
  | MsgNotAResponse | MsgScanning _ | MsgPortError _ => False
  | _ => True
  end.

(** Events of the loop of a session on the port opened at [ser]: lines
    about answers, continue-scan commands written and answers read. *)
Definition loop_event (ser : Z) (e : event) : Prop :=
  match e with
  | Print l => answer_line l
  | SerialWrite r c => r = ser /\ c = command_bytes CONTINUE_SCAN_SUBCOMMAND
  | SerialRead r _ => r = ser
  | SerialOpen _ _ | SerialClose _ => False
  end.


(** How the events of one rate end: the port is closed, a port error is
    reported, or the loop is still running. *)
Inductive rate_end (b : Z) : outcome unit -> list event -> Prop :=
| end_closed : rate_end b (Ok tt) [SerialClose b]
| end_failed : rate_end b (Ok tt) [Print (MsgPortError b)]
| end_running : rate_end b OutOfFuel [].

(** The events of one rate, with the outcome of its turn of the sweep. *)
Inductive rate_events (port : string) (b : Z) : outcome unit -> list event -> Prop :=
| rate_not_opened :
    rate_events port b (Ok tt)
      [Print (MsgScanning b); SerialOpen port b; Print (MsgPortError b)]
| rate_session o body tail :
    Forall (loop_event b) body ->
    rate_end b o tail ->
    rate_events port b o
      (Print (MsgScanning b) :: SerialOpen port b ::
       SerialWrite b (command_bytes START_SCAN_SUBCOMMAND) :: body ++ tail).

(** The events of a sweep over some rates, with its outcome: the turns of
    the rates one after the other, the last one possibly still running. *)
Inductive sweep_events (port : string) : list Z -> outcome unit -> list event -> Prop :=
| sweep_done : sweep_events port [] (Ok tt) []
| sweep_next b rest ext o exts :
    rate_events port b (Ok tt) ext ->
    sweep_events port rest o exts ->
    sweep_events port (b :: rest) o (ext ++ exts)
| sweep_running b rest ext :
    rate_events port b OutOfFuel ext ->
    sweep_events port (b :: rest) OutOfFuel ext.


(** A trace without its debug lines. *)
Definition erase_debug (t : list event) : list event :=
  filter (fun e => match e with
                   | Print (MsgDebugAnswer _) => false
                   | _ => true
                   end) t.

(** [w1] is a state of a run under [--debug] and [w2] the state of the same
    run without it: they differ by the debug lines of [w1] only. *)
Definition debug_twin (w1 w2 : world) : Prop :=
  device_counter w1 = device_counter w2 /\
  written w1 = written w2 /\
  erase_debug (trace w1) = trace w2.

(** The devices that [process_response] reports for what was read. *)
Definition decoded (raw : list byte) : list (Z * Z) :=
  devices (trace (snd (process_response (Some (denoise raw)) false initial_world))).

(** The devices decoded from the answers read in a trace, in order. *)
Definition decoded_reads (t : list event) : list (Z * Z) :=
  flat_map (fun e => match e with SerialRead _ raw => decoded raw | _ => [] end) t.




(** * Properties *)

(** ** Bytes and words *)

Lemma byte_val_range (b : byte) : 0 <= byte_val b < 256.
Proof.
  unfold byte_val. pose proof (Byte.to_N_bounded b). lia.
Qed.

Lemma byte_val_inj (a b : byte) : byte_val a = byte_val b -> a = b.
Proof.
  unfold byte_val. intros H. apply N2Z.inj in H.
  pose proof (Byte.of_to_N a) as Ha. rewrite H, Byte.of_to_N in Ha.
  congruence.
Qed.

Lemma lxor_word (n a b : Z) :
  0 <= n -> 0 <= a < 2 ^ n -> 0 <= b < 2 ^ n -> 0 <= Z.lxor a b < 2 ^ n.
Proof.
  intros Hn Ha Hb. split.
  - apply Z.lxor_nonneg. lia.
  - assert (Hx : 0 <= Z.lxor a b) by (apply Z.lxor_nonneg; lia).
    destruct (Z.eq_dec (Z.lxor a b) 0) as [E | E].
    + rewrite E. apply Z.pow_pos_nonneg; lia.
    + assert (Hpos : 0 < n).
      { destruct (Z.eq_dec n 0) as [-> | Nn]; [| lia].
        change (2 ^ 0) with 1 in Ha, Hb.
        assert (a = 0) by lia. assert (b = 0) by lia. subst a b.
        simpl in E. congruence. }
      apply Z.log2_lt_pow2; [lia |].
      eapply Z.le_lt_trans; [apply Z.log2_lxor; lia |].
      apply Z.max_lub_lt.
      * destruct (Z.eq_dec a 0) as [-> | Na]; [simpl; lia |].
        apply Z.log2_lt_pow2; lia.
      * destruct (Z.eq_dec b 0) as [-> | Nb]; [simpl; lia |].
        apply Z.log2_lt_pow2; lia.
Qed.

(** ** Checksum *)

Lemma crc_shift_round (crc : Z) : crc_shift crc = Reference.round crc.
Proof.
  unfold crc_shift, Reference.round.
  change 1 with (Z.ones 1) at 1.
  rewrite Z.land_ones by lia.
  rewrite Z.shiftr_div_pow2 by lia.
  change (2 ^ 1) with 2.
  rewrite Zmod_odd. destruct (Z.odd crc); reflexivity.
Qed.

Lemma crc_update_rounds8 (crc : Z) (pos : byte) :
  crc_update crc pos = Reference.rounds8 (Z.lxor crc (byte_val pos)).
Proof.
  unfold crc_update, Reference.rounds8. simpl Nat.iter.
  rewrite !crc_shift_round. reflexivity.
Qed.

Lemma calculate_crc_feed (data : list byte) (acc : Z) :
  fold_left crc_update data acc = Reference.feed acc data.
Proof.
  revert acc. induction data as [| b data IH]; intros acc; simpl.
  - reflexivity.
  - rewrite IH, crc_update_rounds8. reflexivity.
Qed.

Lemma crc_shift_word (crc : Z) :
  0 <= crc < 65536 -> 0 <= crc_shift crc < 65536.
Proof.
  intros H. unfold crc_shift.
  assert (Hs : 0 <= Z.shiftr crc 1 < 32768).
  { rewrite Z.shiftr_div_pow2 by lia. change (2 ^ 1) with 2.
    split; [apply Z.div_pos; lia | apply Z.div_lt_upper_bound; lia]. }
  destruct (negb (Z.land crc 1 =? 0)).
  - apply (lxor_word 16); lia.
  - lia.
Qed.

Lemma crc_update_word (crc : Z) (pos : byte) :
  0 <= crc < 65536 -> 0 <= crc_update crc pos < 65536.
Proof.
  intros H. unfold crc_update.
  assert (H0 : 0 <= Z.lxor crc (byte_val pos) < 65536).
  { pose proof (byte_val_range pos). apply (lxor_word 16); lia. }
  simpl Nat.iter. do 8 apply crc_shift_word. exact H0.
Qed.

Lemma fold_crc_word (data : list byte) (acc : Z) :
  0 <= acc < 65536 -> 0 <= fold_left crc_update data acc < 65536.
Proof.
  revert acc. induction data as [| b data IH]; intros acc H; simpl.
  - exact H.
  - apply IH, crc_update_word, H.
Qed.

Lemma calculate_crc_word (data : list byte) : 0 <= calculate_crc data < 65536.
Proof.
  unfold calculate_crc. apply fold_crc_word. lia.
Qed.

(** C2.  [calculate_crc] computes the CRC16/MODBUS reference of its input
    (accumulator started at 0xFFFF, each byte XORed in and followed by
    eight shift rounds with the conditional XOR of 0xA001); its value fits
    sixteen bits; the empty sequence gives 0xFFFF; the check string
    "123456789" gives 0x4B37; and equal inputs give equal checksums. *)
Theorem calculate_crc_is_crc16_modbus :
  (forall data, calculate_crc data = Reference.crc16_modbus data) /\
  (forall data, 0 <= calculate_crc data < 2 ^ 16) /\
  calculate_crc [] = 0xFFFF /\
  calculate_crc [x31; x32; x33; x34; x35; x36; x37; x38; x39] = 0x4B37 /\
  (forall data data', data = data' -> calculate_crc data = calculate_crc data').
Proof.
  split; [| split; [| split; [| split]]].
  - intros data. apply calculate_crc_feed.
  - intros data. change (2 ^ 16) with 65536. apply calculate_crc_word.
  - reflexivity.
  - vm_compute. reflexivity.
  - intros data data' E. rewrite E. reflexivity.
Qed.

Lemma calculate_crc_is_crc16_modbus_witness :
  calculate_crc [xfd; x46; x01] = calculate_crc [xfd; x46; x01].
Proof.
  apply (proj2 (proj2 (proj2 (proj2 calculate_crc_is_crc16_modbus)))).
  reflexivity.
Defined.

(** ** Building a command *)

Lemma byte_of_int_ok (x : Z) :
  0 <= x < 256 -> exists b, Py.byte_of_int x = Ok b /\ byte_val b = x.
Proof.
  intros H. unfold Py.byte_of_int.
  replace ((0 <=? x) && (x <? 256)) with true
    by (symmetry; apply andb_true_iff; split; [apply Z.leb_le | apply Z.ltb_lt]; lia).
  destruct (Byte.of_N (Z.to_N x)) as [b |] eqn:E.
  - exists b. split; [reflexivity |].
    apply Byte.to_of_N in E. unfold byte_val. rewrite E. lia.
  - apply Byte.of_N_None_iff in E. lia.
Qed.

Lemma to_bytes_2_little_ok (n : Z) :
  0 <= n < 65536 ->
  exists lo hi, Py.to_bytes_2_little n = Ok [lo; hi] /\
                byte_val lo = n mod 256 /\ byte_val hi = n / 256.
Proof.
  intros H. unfold Py.to_bytes_2_little.
  replace ((0 <=? n) && (n <? 65536)) with true
    by (symmetry; apply andb_true_iff; split; [apply Z.leb_le | apply Z.ltb_lt]; lia).
  assert (Hlo : 0 <= n mod 256 < 256) by (apply Z.mod_pos_bound; lia).
  assert (Hhi : 0 <= n / 256 < 256).
  { split; [apply Z.div_pos; lia | apply Z.div_lt_upper_bound; lia]. }
  destruct (Byte.of_N (Z.to_N (n mod 256))) as [lo |] eqn:Elo.
  - destruct (Byte.of_N (Z.to_N (n / 256))) as [hi |] eqn:Ehi.
    + exists lo, hi. split; [reflexivity |].
      apply Byte.to_of_N in Elo, Ehi. unfold byte_val.
      rewrite Elo, Ehi. lia.
    + apply Byte.of_N_None_iff in Ehi. lia.
  - apply Byte.of_N_None_iff in Elo. lia.
Qed.



(** ** Removing the fill bytes *)

Lemma denoise_no_ff (raw : list byte) : no_ff (denoise raw).
Proof.
  unfold no_ff, denoise. apply Forall_forall. intros b Hb.
  apply filter_In in Hb. destruct Hb as [_ Hb].
  apply negb_true_iff, Z.eqb_neq in Hb. exact Hb.
Qed.

Lemma denoise_subseq (raw : list byte) : subseq (denoise raw) raw.
Proof.
  induction raw as [| b raw IH]; simpl.
  - constructor.
  - destruct (negb (byte_val b =? 255)); constructor; exact IH.
Qed.

Lemma subseq_denoise_mono (s raw : list byte) :
  subseq s raw -> subseq (denoise s) (denoise raw).
Proof.
  induction 1 as [| x s l _ IH | x s l _ IH]; simpl.
  - constructor.
  - destruct (negb (byte_val x =? 255)); [constructor |]; exact IH.
  - destruct (negb (byte_val x =? 255)); [constructor |]; exact IH.
Qed.

Lemma denoise_fixed (s : list byte) : no_ff s -> denoise s = s.
Proof.
  induction 1 as [| b s Hb _ IH]; simpl.
  - reflexivity.
  - apply Z.eqb_neq in Hb. rewrite Hb. simpl. rewrite IH. reflexivity.
Qed.

Lemma denoise_length_count (raw : list byte) :
  length raw = (length (denoise raw) + count_ff raw)%nat.
Proof.
  unfold count_ff. induction raw as [| b raw IH]; simpl.
  - reflexivity.
  - destruct (byte_val b =? 255); simpl; lia.
Qed.

(** C5.  The filter of [send_command] deletes the bytes equal to 0xFF and
    nothing else, the remaining bytes keeping their order: the result is a
    subsequence of the input without 0xFF, every subsequence of the input
    without 0xFF is a subsequence of it, and the input is longer by exactly
    its number of 0xFF bytes.  The bytes FF FD 46 03 FF become FD 46 03,
    and what [send_command] returns is the filtered read. *)
Theorem denoise_removes_exactly_ff :
  (forall raw,
     subseq (denoise raw) raw /\
     no_ff (denoise raw) /\
     (forall s, subseq s raw -> no_ff s -> subseq s (denoise raw)) /\
     length raw = (length (denoise raw) + count_ff raw)%nat) /\
  denoise [xff; xfd; x46; x03; xff] = [xfd; x46; x03] /\
  (forall bus ser command w raw,
     exchange bus ser (written w) command = Some raw ->
     fst (send_command bus ser command w) = Ok (denoise raw)).
Proof.
  split; [| split].
  - intros raw. split; [| split; [| split]].
    + apply denoise_subseq.
    + apply denoise_no_ff.
    + intros s Hs Hn. rewrite <- (denoise_fixed s Hn).
      apply subseq_denoise_mono, Hs.
    + apply denoise_length_count.
  - reflexivity.
  - intros bus ser command w raw E. unfold send_command. rewrite E.
    reflexivity.
Qed.

Lemma denoise_removes_exactly_ff_witness :
  subseq [xfd; x03] (denoise [xff; xfd; x46; x03; xff]).
Proof.
  apply (proj1 (proj2 (proj2
           (proj1 denoise_removes_exactly_ff [xff; xfd; x46; x03; xff])))).
  - apply subseq_skip, subseq_keep, subseq_skip, subseq_keep, subseq_skip.
    apply subseq_nil.
  - repeat constructor; vm_compute; discriminate.
Defined.

(** ** Hexadecimal text of a byte *)

Lemma int_base16_format (b : byte) :
  Py.int_base16 (Py.format_0x02X b) = Ok (byte_val b).
Proof.
  destruct b; vm_compute; reflexivity.
Qed.

(** ** Slices *)

Lemma drop_last2_cons {A} (x : A) (l : list A) :
  (2 <= length l)%nat -> Py.drop_last2 (x :: l) = x :: Py.drop_last2 l.
Proof.
  intros H. unfold Py.drop_last2. simpl length.
  replace (S (length l) - 2)%nat with (S (length l - 2)) by lia.
  reflexivity.
Qed.

Lemma log_log (a b : list line) (w : world) : log b (log a w) = log (a ++ b) w.
Proof.
  unfold log. simpl. rewrite map_app, app_assoc. reflexivity.
Qed.

Lemma print_log (l : line) (w : world) : print l w = (Ok tt, log [l] w).
Proof. reflexivity. Qed.

Lemma log_nil w : log [] w = w.
Proof. destruct w; unfold log; simpl; rewrite app_nil_r; reflexivity. Qed.

Lemma known_header (x0 x1 x2 : byte) (rest : list byte) (w : world) :
  and_then (byte_at_is (x0 :: x1 :: x2 :: rest) 0 BROADCAST_ADDRESS)
    (and_then (byte_at_is (x0 :: x1 :: x2 :: rest) 1 EXTENDED_FUNCTION_CODE)
       (or_else (byte_at_is (x0 :: x1 :: x2 :: rest) 2 RESPONSE_SUBCOMMAND)
                (byte_at_is (x0 :: x1 :: x2 :: rest) 2 END_SCAN_SUBCOMMAND))) w
  = (Ok ((byte_val x0 =? BROADCAST_ADDRESS)
         && ((byte_val x1 =? EXTENDED_FUNCTION_CODE)
             && ((byte_val x2 =? RESPONSE_SUBCOMMAND)
                 || (byte_val x2 =? END_SCAN_SUBCOMMAND)))), w).
Proof.
  unfold and_then, or_else, byte_at_is, bind, call, ret, Py.index.
  cbn [nth_error].
  destruct (byte_val x0 =? BROADCAST_ADDRESS); [| reflexivity].
  destruct (byte_val x1 =? EXTENDED_FUNCTION_CODE); [| reflexivity].
  destruct (byte_val x2 =? RESPONSE_SUBCOMMAND); reflexivity.
Qed.

Lemma ints_base16_format (bs : list byte) :
  ints_base16 (map Py.format_0x02X bs) = Ok (map byte_val bs).
Proof.
  induction bs as [| b bs IH]; simpl.
  - reflexivity.
  - rewrite int_base16_format, IH. reflexivity.
Qed.

Lemma int_from_bytes_big_bytes (bs : list byte) (acc : Z) :
  Py.int_from_bytes_big_acc acc (map byte_val bs)
  = Ok (fold_left (fun v b => v * 256 + byte_val b) bs acc).
Proof.
  revert acc. induction bs as [| b bs IH]; intros acc; simpl.
  - reflexivity.
  - pose proof (byte_val_range b) as Hb.
    replace ((0 <=? byte_val b) && (byte_val b <? 256)) with true
      by (symmetry; apply andb_true_iff; split;
          [apply Z.leb_le | apply Z.ltb_lt]; lia).
    apply IH.
Qed.

Lemma parse_device (x0 x1 x2 s0 s1 s2 s3 a : byte) (w : world) :
  byte_val x2 = RESPONSE_SUBCOMMAND ->
  parse_and_print_response (map Py.format_0x02X [x0; x1; x2; s0; s1; s2; s3; a]) w
  = (Ok tt, {| device_counter := device_counter w + 1;
               written := written w;
               trace := trace w ++ map Print (device_lines (device_counter w)
                                      (be32 s0 s1 s2 s3) (byte_val a)) |}).
Proof.
  intros H2. unfold parse_and_print_response.
  unfold bind at 1. simpl map. unfold call at 1, Py.index at 1. simpl nth_error.
  unfold bind at 1, call at 1. rewrite int_base16_format.
  rewrite H2, Z.eqb_refl. cbn [negb length Nat.eqb].
  unfold Py.slice. cbn [Nat.sub skipn firstn].
  change [Py.format_0x02X s0; Py.format_0x02X s1; Py.format_0x02X s2;
          Py.format_0x02X s3]
    with (map Py.format_0x02X [s0; s1; s2; s3]).
  unfold bind at 1, call at 1. rewrite ints_base16_format.
  unfold bind at 1, call at 1, Py.int_from_bytes_big.
  rewrite int_from_bytes_big_bytes. cbn [fold_left].
  unfold bind at 1, call at 1, Py.index. cbn [nth_error].
  unfold bind at 1, call at 1. rewrite int_base16_format.
  unfold bind at 1, increment_counter.
  unfold device_lines, be32.
  destruct (device_counter w + 1 =? 1).
  - unfold bind, print, emit, ret. cbn.
    rewrite <- !app_assoc. reflexivity.
  - unfold bind, print, emit, ret. cbn. reflexivity.
Qed.

Lemma parse_bad_size (x0 x1 x2 : byte) (rest : list byte) (w : world) :
  byte_val x2 = RESPONSE_SUBCOMMAND ->
  length rest <> 5%nat ->
  parse_and_print_response (map Py.format_0x02X (x0 :: x1 :: x2 :: rest)) w
  = (Ok tt, log [MsgBadRecordSize] w).
Proof.
  intros H2 Hlen. unfold parse_and_print_response.
  unfold bind at 1. simpl map. unfold call at 1, Py.index at 1. simpl nth_error.
  unfold bind at 1, call at 1. rewrite int_base16_format.
  rewrite H2, Z.eqb_refl. cbn [negb length].
  rewrite length_map.
  replace (Nat.eqb (S (S (S (length rest)))) 8) with false
    by (symmetry; apply Nat.eqb_neq; lia).
  reflexivity.
Qed.

Lemma crc_matchesb_iff (r : list byte) : crc_matchesb r = true <-> crc_matches r.
Proof. unfold crc_matchesb, crc_matches. apply Z.eqb_eq. Qed.

(** No answer of one byte carries a matching checksum, and an answer of two
    bytes does only when both are 0xFF. *)
Lemma crc_one_byte (x0 : byte) : crc_matchesb [x0] = false.
Proof.
  apply Z.eqb_neq. pose proof (byte_val_range x0).
  change (byte_val x0 + 256 * 0 <> 65535). lia.
Qed.

Lemma crc_two_bytes (x0 x1 : byte) :
  crc_matchesb [x0; x1] = true -> byte_val x0 = 0xFF /\ byte_val x1 = 0xFF.
Proof.
  intros H. apply Z.eqb_eq in H.
  pose proof (byte_val_range x0). pose proof (byte_val_range x1).
  change (byte_val x0 + 256 * (byte_val x1 + 256 * 0) = 65535) in H. lia.
Qed.

(** With the header FD 46 and a third byte 03 or 04, three or four bytes
    never carry a matching checksum. *)
Lemma crc_three_bytes (x0 x1 x2 : byte) :
  byte_val x0 = BROADCAST_ADDRESS -> byte_val x1 = EXTENDED_FUNCTION_CODE ->
  crc_matchesb [x0; x1; x2] = false.
Proof.
  intros H0 H1.
  apply (byte_val_inj x0 xfd) in H0. apply (byte_val_inj x1 x46) in H1.
  subst x0 x1. apply Z.eqb_neq. pose proof (byte_val_range x2).
  change (70 + 256 * (byte_val x2 + 256 * 0) <> calculate_crc [xfd]).
  replace (calculate_crc [xfd]) with 49534 by (vm_compute; reflexivity). lia.
Qed.

Lemma crc_four_bytes (x0 x1 x2 x3 : byte) :
  byte_val x0 = BROADCAST_ADDRESS -> byte_val x1 = EXTENDED_FUNCTION_CODE ->
  byte_val x2 = RESPONSE_SUBCOMMAND \/ byte_val x2 = END_SCAN_SUBCOMMAND ->
  crc_matchesb [x0; x1; x2; x3] = false.
Proof.
  intros H0 H1 H2.
  apply (byte_val_inj x0 xfd) in H0. apply (byte_val_inj x1 x46) in H1.
  subst x0 x1. apply Z.eqb_neq. pose proof (byte_val_range x3).
  change (byte_val x2 + 256 * (byte_val x3 + 256 * 0) <> calculate_crc [xfd; x46]).
  replace (calculate_crc [xfd; x46]) with 53952 by (vm_compute; reflexivity).
  unfold RESPONSE_SUBCOMMAND, END_SCAN_SUBCOMMAND in H2. lia.
Qed.

Lemma hex_array_long (x0 x1 x2 y0 y1 : byte) (rest : list byte) :
  bytes_to_hex_array (x0 :: x1 :: x2 :: y0 :: y1 :: rest)
  = map Py.format_0x02X (x0 :: x1 :: x2 :: Py.drop_last2 (y0 :: y1 :: rest)).
Proof.
  unfold bytes_to_hex_array.
  rewrite !drop_last2_cons by (simpl; lia). reflexivity.
Qed.

Lemma drop_last2_length {A} (l : list A) :
  length (Py.drop_last2 l) = (length l - 2)%nat.
Proof.
  unfold Py.drop_last2. rewrite length_firstn. lia.
Qed.

(** The branch of [process_response] that hands the answer to
    [parse_and_print_response]. *)
Lemma device_branch (hex_array : list string) (debug : bool) (w w' : world) :
  parse_and_print_response hex_array (log (debug_lines debug hex_array) w)
  = (Ok tt, w') ->
  ((if debug then print (MsgDebugAnswer hex_array) else ret tt) ;;
   parse_and_print_response hex_array ;; ret false) w = (Ok false, w').
Proof.
  intros H. unfold bind at 1.
  destruct debug.
  - rewrite print_log. unfold bind at 1. unfold debug_lines in H.
    rewrite H. reflexivity.
  - unfold ret at 1. unfold bind at 1. unfold debug_lines in H.
    rewrite log_nil in H. rewrite H. reflexivity.
Qed.

Lemma process_response_classify (r : list byte) (debug : bool) (w : world) :
  process_response (Some r) debug w = conclude (classify r) r debug w.
Proof.
  destruct r as [| x0 r1]; [reflexivity |].
  unfold process_response, classify.
  cbn [length Nat.eqb]. fold (crc_matchesb (x0 :: r1)).
  destruct (crc_matchesb (x0 :: r1)) eqn:Hcrc; cbn [negb].
  2:{ unfold bind, print, emit, ret, conclude, log.
      cbn [device_counter written trace map].
      rewrite <- app_assoc. reflexivity. }
  destruct r1 as [| x1 [| x2 rest]].
  - rewrite crc_one_byte in Hcrc. discriminate.
  - destruct (crc_two_bytes _ _ Hcrc) as [H0 _].
    unfold bind at 1. unfold and_then at 1, bind at 1, byte_at_is at 1.
    unfold bind at 1, call at 1, Py.index at 1. cbn [nth_error]. unfold ret at 1.
    rewrite H0. reflexivity.
  - unfold bind at 1. rewrite known_header.
    destruct (byte_val x0 =? BROADCAST_ADDRESS) eqn:E0; [| reflexivity].
    destruct (byte_val x1 =? EXTENDED_FUNCTION_CODE) eqn:E1; [| reflexivity].
    cbn [andb].
    unfold bind at 1, byte_at_is at 1, bind at 1, call at 1, Py.index at 1.
    cbn [nth_error]. unfold ret at 1.
    destruct (byte_val x2 =? END_SCAN_SUBCOMMAND) eqn:E4.
    { rewrite orb_true_r. reflexivity. }
    rewrite orb_false_r.
    destruct (byte_val x2 =? RESPONSE_SUBCOMMAND) eqn:E3; [| reflexivity].
    apply Z.eqb_eq in E0, E1, E3.
    destruct rest as [| y0 [| y1 rest]].
    { rewrite crc_three_bytes in Hcrc by assumption. discriminate. }
    { rewrite crc_four_bytes in Hcrc by auto. discriminate. }
    destruct (Nat.eq_dec (length rest) 5) as [L | L].
    + destruct rest as [| s2 [| s3 [| a [| c0 [| c1 [| z rest]]]]]];
        try discriminate L.
      unfold conclude. rewrite hex_array_long. apply device_branch.
      change (Py.drop_last2 [y0; y1; s2; s3; a; c0; c1]) with [y0; y1; s2; s3; a].
      rewrite parse_device by assumption.
      unfold reported, log.
      cbn [device_counter written trace].
      rewrite map_app, app_assoc. reflexivity.
    + replace (match rest with
               | [s2; s3; a; _; _] => DeviceFound (be32 y0 y1 s2 s3) (byte_val a)
               | _ => MalformedDeviceRecord
               end) with MalformedDeviceRecord.
      2:{ destruct rest as [| s2 [| s3 [| a [| c0 [| c1 [| z rest]]]]]];
            try reflexivity. contradiction L. reflexivity. }
      unfold conclude. rewrite hex_array_long. apply device_branch.
      rewrite parse_bad_size; [| assumption |].
      2:{ rewrite drop_last2_length. simpl length. lia. }
      rewrite log_log. reflexivity.
Qed.

Lemma has_header_cons (x0 x1 x2 : byte) (rest : list byte) (b0 b1 b2 : Z) :
  has_header (x0 :: x1 :: x2 :: rest) b0 b1 b2 <->
  byte_val x0 = b0 /\ byte_val x1 = b1 /\ byte_val x2 = b2.
Proof.
  split.
  - intros (y0 & y1 & y2 & rest' & E & H0 & H1 & H2).
    injection E as -> -> -> _. auto.
  - intros (H0 & H1 & H2). exists x0, x1, x2, rest. auto.
Qed.

Lemma has_header_short (r : list byte) (b0 b1 b2 : Z) :
  (length r < 3)%nat -> ~ has_header r b0 b1 b2.
Proof.
  intros L (y0 & y1 & y2 & rest & -> & _). simpl in L. lia.
Qed.

Lemma classify_means (r : list byte) : verdict_means (classify r) r.
Proof.
  destruct r as [| x0 r1]; [reflexivity |].
  unfold classify.
  destruct (crc_matchesb (x0 :: r1)) eqn:Hcrc; cbn [negb].
  2:{ split; [discriminate |]. rewrite <- crc_matchesb_iff. congruence. }
  apply crc_matchesb_iff in Hcrc.
  destruct r1 as [| x1 [| x2 rest]].
  - repeat split; try discriminate; try assumption;
      apply has_header_short; simpl; lia.
  - repeat split; try discriminate; try assumption;
      apply has_header_short; simpl; lia.
  - unfold BROADCAST_ADDRESS, EXTENDED_FUNCTION_CODE, END_SCAN_SUBCOMMAND,
      RESPONSE_SUBCOMMAND.
    destruct (byte_val x0 =? 253) eqn:E0; cbn [andb].
    2:{ apply Z.eqb_neq in E0. simpl.
        rewrite !has_header_cons. repeat split; try discriminate; try assumption; tauto. }
    destruct (byte_val x1 =? 70) eqn:E1.
    2:{ apply Z.eqb_neq in E1. simpl.
        rewrite !has_header_cons. repeat split; try discriminate; try assumption; tauto. }
    apply Z.eqb_eq in E0, E1.
    destruct (byte_val x2 =? 4) eqn:E4.
    { apply Z.eqb_eq in E4. simpl. rewrite has_header_cons. auto. }
    destruct (byte_val x2 =? 3) eqn:E3.
    2:{ apply Z.eqb_neq in E3, E4. simpl.
        rewrite !has_header_cons. repeat split; try discriminate; try assumption; tauto. }
    apply Z.eqb_eq in E3.
    destruct (Nat.eq_dec (length rest) 7) as [L | L].
    + destruct rest as [| s0 [| s1 [| s2 [| s3 [| a [| c0 [| c1 [| z rest]]]]]]]];
        try discriminate L.
      simpl. split; [assumption |].
      exists x0, x1, x2, s0, s1, s2, s3, a, c0, c1.
      repeat split; assumption.
    + replace (match rest with
               | [s0; s1; s2; s3; a; _; _] => DeviceFound (be32 s0 s1 s2 s3) (byte_val a)
               | _ => MalformedDeviceRecord
               end) with MalformedDeviceRecord.
      2:{ destruct rest as [| s0 [| s1 [| s2 [| s3 [| a [| c0 [| c1 [| z rest]]]]]]]];
            try reflexivity. contradiction L. reflexivity. }
      simpl. rewrite has_header_cons. repeat split; try assumption. lia.
Qed.

Lemma has_header_third (r : list byte) (a b c a' b' c' : Z) :
  has_header r a b c -> has_header r a' b' c' -> c = c'.
Proof.
  intros (x0 & x1 & x2 & rest & -> & _ & _ & H) H'.
  apply has_header_cons in H'. lia.
Qed.

Lemma crc_matches_nonempty (r : list byte) : crc_matches r -> r <> [].
Proof.
  intros H ->. vm_compute in H. discriminate.
Qed.

(** A frame with a matching checksum and the header FD 46 03 or FD 46 04 has
    at least five bytes. *)
Lemma framed_length (r : list byte) (b2 : Z) :
  crc_matches r -> has_header r 0xFD 0x46 b2 -> b2 = 0x03 \/ b2 = 0x04 ->
  (5 <= length r)%nat.
Proof.
  intros Hcrc (x0 & x1 & x2 & rest & -> & H0 & H1 & H2) Hb.
  apply crc_matchesb_iff in Hcrc.
  destruct rest as [| y0 [| y1 rest]].
  - rewrite crc_three_bytes in Hcrc by assumption. discriminate.
  - rewrite crc_four_bytes in Hcrc; [discriminate | assumption | assumption |].
    unfold RESPONSE_SUBCOMMAND, END_SCAN_SUBCOMMAND. lia.
  - simpl. lia.
Qed.

Lemma no_ff_short_crc (r : list byte) :
  no_ff r -> length r = 1%nat \/ length r = 2%nat -> ~ crc_matches r.
Proof.
  intros Hn L Hcrc. apply crc_matchesb_iff in Hcrc.
  destruct r as [| x0 [| x1 [| x2 rest]]]; simpl in L; try lia.
  - rewrite crc_one_byte in Hcrc. discriminate.
  - apply crc_two_bytes in Hcrc. inversion Hn; subst. tauto.
Qed.


(** C7.  An answer with a matching checksum whose first byte is not FD, or
    whose second byte is not 46, or whose third byte is neither 03 nor 04,
    is an unrecognized frame: the only effect is the line saying that it is
    ignored, no device is reported and the continue value is returned. *)
Theorem unrecognized_frame_is_ignored (r : list byte) (debug : bool) (w : world) :
  crc_matches r ->
  byte_at r 0 <> Some 0xFD \/
  byte_at r 1 <> Some 0x46 \/
  (byte_at r 2 <> Some 0x03 /\ byte_at r 2 <> Some 0x04) ->
  classify r = UnrecognizedFrame /\
  process_response (Some r) debug w = (Ok false, log [MsgIgnored] w) /\
  device_counter (log [MsgIgnored] w) = device_counter w /\
  devices (trace (log [MsgIgnored] w)) = devices (trace w).
Proof.
  intros Hcrc Hbad.
  assert (Hv : classify r = UnrecognizedFrame).
  { pose proof (classify_means r) as Hm.
    assert (Hno : forall b2, ~ (has_header r 0xFD 0x46 b2 /\ (b2 = 0x03 \/ b2 = 0x04))).
    { intros b2 [(x0 & x1 & x2 & rest & -> & H0 & H1 & H2) Hb].
      unfold byte_at in Hbad. simpl in Hbad. rewrite H0, H1, H2 in Hbad.
      destruct Hbad as [N | [N | [N3 N4]]]; try (apply N; reflexivity).
      destruct Hb as [-> | ->]; [apply N3 | apply N4]; reflexivity. }
    destruct (classify r); simpl in Hm; try reflexivity.
    - subst r. apply crc_matches_nonempty in Hcrc. congruence.
    - tauto.
    - exfalso. apply (Hno 0x04). tauto.
    - exfalso. apply (Hno 0x03). tauto.
    - exfalso. apply (Hno 0x03).
      destruct Hm as (_ & x0 & x1 & x2 & s0 & s1 & s2 & s3 & a & c0 & c1 & -> & H0 & H1 & H2 & _).
      rewrite has_header_cons. auto. }
  split; [exact Hv |]. split.
  - rewrite process_response_classify, Hv. reflexivity.
  - split; [reflexivity |].
    unfold log, devices. simpl. rewrite flat_map_app. simpl.
    apply app_nil_r.
Qed.

Lemma unrecognized_frame_is_ignored_witness :
  classify [x01; x02; x03; x61; x61] = UnrecognizedFrame /\
  process_response (Some [x01; x02; x03; x61; x61]) false initial_world
  = (Ok false, log [MsgIgnored] initial_world) /\
  device_counter (log [MsgIgnored] initial_world) = device_counter initial_world /\
  devices (trace (log [MsgIgnored] initial_world)) = devices (trace initial_world).
Proof.
  apply (unrecognized_frame_is_ignored [x01; x02; x03; x61; x61] false initial_world).
  - vm_compute. reflexivity.
  - left. vm_compute. discriminate.
Defined.

(** ** Device records *)

Lemma classify_device (x0 x1 x2 s0 s1 s2 s3 a c0 c1 : byte) :
  crc_matches [x0; x1; x2; s0; s1; s2; s3; a; c0; c1] ->
  byte_val x0 = 0xFD -> byte_val x1 = 0x46 -> byte_val x2 = 0x03 ->
  classify [x0; x1; x2; s0; s1; s2; s3; a; c0; c1]
  = DeviceFound (be32 s0 s1 s2 s3) (byte_val a).
Proof.
  intros Hcrc H0 H1 H2. apply crc_matchesb_iff in Hcrc.
  unfold classify. rewrite Hcrc. cbn [negb].
  unfold BROADCAST_ADDRESS, EXTENDED_FUNCTION_CODE, END_SCAN_SUBCOMMAND,
    RESPONSE_SUBCOMMAND.
  rewrite H0, H1, H2. reflexivity.
Qed.

Lemma classify_malformed_record (r : list byte) :
  crc_matches r -> has_header r 0xFD 0x46 0x03 -> length r <> 10%nat ->
  classify r = MalformedDeviceRecord.
Proof.
  intros Hcrc Hh L. pose proof (classify_means r) as Hm.
  destruct (classify r); simpl in Hm; try reflexivity.
  - subst r. apply crc_matches_nonempty in Hcrc. congruence.
  - tauto.
  - tauto.
  - destruct Hm as [_ Hh']. pose proof (has_header_third _ _ _ _ _ _ _ Hh Hh'). lia.
  - destruct Hm as (_ & x0 & x1 & x2 & s0 & s1 & s2 & s3 & a & c0 & c1 & -> & _).
    simpl in L. lia.
Qed.

(** C1, as the code has it.  An answer with a matching checksum and the
    header FD 46 03 is decoded when it has exactly ten bytes, that is eight
    bytes before the two checksum bytes: the serial number is the big-endian
    value of bytes 3 to 6 and the bus address is byte 7.  With any other
    length it is rejected as a record of the wrong size.  Serial-number
    bytes 00 00 01 2C followed by the address byte 05 give serial number 300
    and bus address 5. *)
Theorem device_record_has_ten_bytes (r : list byte) (debug : bool) (w : world) :
  no_ff r ->
  crc_matches r ->
  has_header r 0xFD 0x46 0x03 ->
  (length r <> 10%nat ->
   process_response (Some r) debug w
   = (Ok false,
      log (debug_lines debug (bytes_to_hex_array r) ++ [MsgBadRecordSize]) w)) /\
  (forall x0 x1 x2 s0 s1 s2 s3 a c0 c1,
     r = [x0; x1; x2; s0; s1; s2; s3; a; c0; c1] ->
     process_response (Some r) debug w
     = (Ok false,
        reported debug (bytes_to_hex_array r) (be32 s0 s1 s2 s3) (byte_val a) w)) /\
  (forall c0 c1,
     r = [xfd; x46; x03; x00; x00; x01; x2c; x05; c0; c1] ->
     process_response (Some r) debug w
     = (Ok false, reported debug (bytes_to_hex_array r) 300 5 w)).
Proof.
  intros _ Hcrc Hh.
  assert (Hdev : forall x0 x1 x2 s0 s1 s2 s3 a c0 c1,
             r = [x0; x1; x2; s0; s1; s2; s3; a; c0; c1] ->
             process_response (Some r) debug w
             = (Ok false,
                reported debug (bytes_to_hex_array r) (be32 s0 s1 s2 s3)
                  (byte_val a) w)).
  { intros x0 x1 x2 s0 s1 s2 s3 a c0 c1 E. subst r.
    apply has_header_cons in Hh. destruct Hh as (H0 & H1 & H2).
    rewrite process_response_classify, classify_device by assumption.
    reflexivity. }
  split; [| split].
  - intros L. rewrite process_response_classify.
    rewrite classify_malformed_record by assumption. reflexivity.
  - exact Hdev.
  - intros c0 c1 E. apply (Hdev _ _ _ _ _ _ _ _ _ _ E).
Qed.

Lemma device_record_has_ten_bytes_witness :
  process_response
    (Some [xfd; x46; x03; x00; x00; x01; x2c; x05; x24; x22]) false initial_world
  = (Ok false,
     reported false
       (bytes_to_hex_array [xfd; x46; x03; x00; x00; x01; x2c; x05; x24; x22])
       300 5 initial_world).
Proof.
  apply (proj2 (proj2
    (device_record_has_ten_bytes
       [xfd; x46; x03; x00; x00; x01; x2c; x05; x24; x22] false initial_world
       ltac:(repeat constructor; vm_compute; discriminate)
       ltac:(vm_compute; reflexivity)
       ltac:(apply has_header_cons; vm_compute; auto))) x24 x22).
  reflexivity.
Defined.

(** C1 as stated fails.  The ten-byte answer FD 46 03 00 00 01 2C 05 24 22
    has a matching checksum and is decoded to serial number 300 and bus
    address 5, although it does not have eight bytes; the eight-byte answer
    FD 46 03 00 00 01 5D BD has a matching checksum and is rejected as a
    record of the wrong size. *)
Lemma device_record_eight_bytes_counterexample :
  let ten := [xfd; x46; x03; x00; x00; x01; x2c; x05; x24; x22] in
  let eight := [xfd; x46; x03; x00; x00; x01; x5d; xbd] in
  (no_ff ten /\ crc_matches ten /\ has_header ten 0xFD 0x46 0x03 /\
   length ten <> 8%nat /\
   process_response (Some ten) false initial_world
   = (Ok false,
      {| device_counter := 1; written := 0;
         trace := [Print TableHeader; Print TableRule;
                   Print (TableRow 1 300 5)] |})) /\
  (no_ff eight /\ crc_matches eight /\ has_header eight 0xFD 0x46 0x03 /\
   length eight = 8%nat /\
   process_response (Some eight) false initial_world
   = (Ok false,
      {| device_counter := 0; written := 0;
         trace := [Print MsgBadRecordSize] |})).
Proof.
  cbv zeta. split.
  - split; [repeat constructor; vm_compute; discriminate |].
    split; [vm_compute; reflexivity |].
    split; [apply has_header_cons; vm_compute; auto |].
    split; [simpl; lia | vm_compute; reflexivity].
  - split; [repeat constructor; vm_compute; discriminate |].
    split; [vm_compute; reflexivity |].
    split; [apply has_header_cons; vm_compute; auto |].
    split; [reflexivity | vm_compute; reflexivity].
Qed.

(** ** Short answers *)

(** C4, as the code has it.  There is no length test and no separate
    verdict for a short answer: a non-empty answer of fewer than five bytes
    without 0xFF goes through the checksum comparison first.  It is reported
    as a checksum mismatch when the declared and the computed checksum
    differ, which is always so with one or two bytes, and as an unrecognized
    frame otherwise; either way the continue value is returned and no device
    is reported. *)
Theorem short_answer_is_mismatch_or_ignored (r : list byte) (debug : bool)
    (w : world) :
  r <> [] ->
  no_ff r ->
  (length r < 5)%nat ->
  ((~ crc_matches r /\
    classify r = ChecksumMismatch /\
    process_response (Some r) debug w
    = (Ok false, log [MsgCrcError; MsgCrcDump (bytes_to_hex_array r)] w))
   \/
   (crc_matches r /\ (3 <= length r)%nat /\
    classify r = UnrecognizedFrame /\
    process_response (Some r) debug w = (Ok false, log [MsgIgnored] w))) /\
  device_counter (snd (process_response (Some r) debug w)) = device_counter w /\
  devices (trace (snd (process_response (Some r) debug w))) = devices (trace w).
Proof.
  intros Hne Hn L.
  pose proof (classify_means r) as Hm.
  assert (Hshort : forall b2, crc_matches r -> has_header r 0xFD 0x46 b2 ->
                              b2 = 0x03 \/ b2 = 0x04 -> False).
  { intros b2 Hc Hh Hb. pose proof (framed_length r b2 Hc Hh Hb). lia. }
  rewrite process_response_classify.
  destruct (classify r) eqn:Hv; simpl in Hm.
  - contradiction.
  - split; [left; repeat split; tauto |].
    unfold conclude, log, devices. simpl. rewrite flat_map_app. simpl.
    rewrite app_nil_r. auto.
  - split.
    + right. destruct Hm as (_ & Hc & _). repeat split; try assumption.
      destruct (Nat.le_gt_cases 3 (length r)) as [H3 | H3]; [exact H3 |].
      exfalso. apply (no_ff_short_crc r Hn); [| exact Hc].
      destruct r as [| ? [| ? [| ? ?]]]; simpl in H3; try lia; try congruence;
        simpl; auto.
    + unfold conclude, log, devices. simpl. rewrite flat_map_app. simpl.
      rewrite app_nil_r. auto.
  - exfalso. apply (Hshort 0x04); tauto.
  - exfalso. apply (Hshort 0x03); tauto.
  - destruct Hm as (_ & x0 & x1 & x2 & s0 & s1 & s2 & s3 & a & c0 & c1 & -> & _).
    simpl in L. lia.
Qed.

Lemma short_answer_is_mismatch_or_ignored_witness :
  ((~ crc_matches [x01; x7e; x80] /\
    classify [x01; x7e; x80] = ChecksumMismatch /\
    process_response (Some [x01; x7e; x80]) false initial_world
    = (Ok false,
       log [MsgCrcError; MsgCrcDump (bytes_to_hex_array [x01; x7e; x80])]
         initial_world))
   \/
   (crc_matches [x01; x7e; x80] /\ (3 <= length [x01; x7e; x80])%nat /\
    classify [x01; x7e; x80] = UnrecognizedFrame /\
    process_response (Some [x01; x7e; x80]) false initial_world
    = (Ok false, log [MsgIgnored] initial_world))) /\
  device_counter
    (snd (process_response (Some [x01; x7e; x80]) false initial_world))
  = device_counter initial_world /\
  devices
    (trace (snd (process_response (Some [x01; x7e; x80]) false initial_world)))
  = devices (trace initial_world).
Proof.
  apply (short_answer_is_mismatch_or_ignored [x01; x7e; x80] false initial_world).
  - discriminate.
  - repeat constructor; vm_compute; discriminate.
  - simpl. lia.
Defined.

(** C4 as stated fails.  The one-byte answer 01 is not set aside as too
    short: its single byte is read as the declared checksum, compared with
    the checksum of the empty sequence, and the answer is reported as a
    checksum mismatch. *)
Lemma short_answer_counterexample :
  [x01] <> [] /\ no_ff [x01] /\ (length [x01] < 5)%nat /\
  Py.int_from_bytes_little (Py.last2 [x01]) = 1 /\
  calculate_response_crc [x01] = 0xFFFF /\
  classify [x01] = ChecksumMismatch /\
  process_response (Some [x01]) false initial_world
  = (Ok false,
     {| device_counter := 0; written := 0;
        trace := [Print MsgCrcError; Print (MsgCrcDump [])] |}).
Proof.
  split; [discriminate |].
  split; [repeat constructor; vm_compute; discriminate |].
  split; [simpl; lia |].
  repeat split; vm_compute; reflexivity.
Qed.

(** ** Totality *)

(** C10.  On an answer without 0xFF, [process_response] returns a boolean
    and raises nothing.  The header is looked at only after the checksums
    were found equal: a mismatch is reported without any indexing, and the
    checksums never match on one or two bytes.  A matching checksum with the
    header FD 46 03 needs at least five bytes, so the list handed to
    [parse_and_print_response] has at least three entries and that function
    returns. *)
Theorem process_response_total (r : list byte) (debug : bool) (w : world) :
  no_ff r ->
  (exists stop w', process_response (Some r) debug w = (Ok stop, w')) /\
  (r <> [] -> ~ crc_matches r ->
   process_response (Some r) debug w
   = (Ok false, log [MsgCrcError; MsgCrcDump (bytes_to_hex_array r)] w)) /\
  (length r = 1%nat \/ length r = 2%nat -> ~ crc_matches r) /\
  (crc_matches r -> has_header r 0xFD 0x46 0x03 ->
   (5 <= length r)%nat /\
   (3 <= length (bytes_to_hex_array r))%nat /\
   exists w', parse_and_print_response (bytes_to_hex_array r) w = (Ok tt, w')).
Proof.
  intros Hn. split; [| split; [| split]].
  - rewrite process_response_classify.
    destruct (classify r); unfold conclude; eexists; eexists; reflexivity.
  - intros Hne Hc. rewrite process_response_classify.
    pose proof (classify_means r) as Hm.
    destruct (classify r); simpl in Hm; try reflexivity; tauto.
  - apply no_ff_short_crc, Hn.
  - intros Hc Hh.
    assert (L : (5 <= length r)%nat) by (apply (framed_length r 0x03); auto).
    split; [exact L |].
    destruct Hh as (x0 & x1 & x2 & rest & -> & H0 & H1 & H2).
    destruct rest as [| y0 [| y1 rest]]; try (simpl in L; lia).
    rewrite hex_array_long. split; [simpl; lia |].
    destruct (Nat.eq_dec (length rest) 5) as [L5 | L5].
    + destruct rest as [| s2 [| s3 [| a [| c0 [| c1 [| z rest]]]]]];
        try discriminate L5.
      change (Py.drop_last2 [y0; y1; s2; s3; a; c0; c1]) with [y0; y1; s2; s3; a].
      rewrite parse_device by assumption. eexists. reflexivity.
    + rewrite parse_bad_size; [eexists; reflexivity | assumption |].
      rewrite drop_last2_length. simpl length. lia.
Qed.

Lemma process_response_total_witness :
  exists stop w',
    process_response (Some [xfd; x46; x03; x00; x00; x01; x5d; xbd]) true
      initial_world = (Ok stop, w').
Proof.
  apply (process_response_total [xfd; x46; x03; x00; x00; x01; x5d; xbd] true
           initial_world).
  repeat constructor; vm_compute; discriminate.
Defined.

(** ** Steps of a run *)

(** Composition of computations that respect a reflexive and transitive
    relation on states. *)
Section Respects.

Variable R : world -> world -> Prop.
Hypothesis R_refl : forall w, R w w.
Hypothesis R_trans : forall w1 w2 w3, R w1 w2 -> R w2 w3 -> R w1 w3.

Lemma respects_ret {A} (a : A) : respects R (ret a).
Proof. intros w. apply R_refl. Qed.

Lemma respects_call {A} (r : outcome A) : respects R (call r).
Proof. intros w. apply R_refl. Qed.

Lemma respects_bind {A B} (m : M A) (k : A -> M B) :
  respects R m -> (forall a, respects R (k a)) -> respects R (bind m k).
Proof.
  intros Hm Hk w. unfold bind. specialize (Hm w).
  destruct (m w) as [[a | e |] w1]; simpl in *; try exact Hm.
  eapply R_trans; [exact Hm | apply Hk].
Qed.

Lemma respects_try {A} (body handler : M A) :
  respects R body -> respects R handler ->
  respects R (try_except_serial body handler).
Proof.
  intros Hb Hh w. unfold try_except_serial. specialize (Hb w).
  destruct (body w) as [[a | [] |] w1]; simpl in *; try exact Hb.
  eapply R_trans; [exact Hb | apply Hh].
Qed.

Lemma respects_for_each {A} (xs : list A) (body : A -> M unit) :
  (forall x, respects R (body x)) -> respects R (for_each xs body).
Proof.
  intros Hb. induction xs as [| x xs IH]; simpl.
  - apply respects_ret.
  - apply respects_bind; [apply Hb | intros _; exact IH].
Qed.

(** The steps of the loop and of one rate, given those of their parts. *)
Variable bus : serial_bus.
Variable ser : Z.
Hypothesis R_send : forall command, respects R (send_command bus ser command).
Hypothesis R_process : forall r debug, respects R (process_response (Some r) debug).

Lemma respects_continue_scan (fuel : nat) (debug : bool) :
  respects R (continue_scan fuel bus ser debug).
Proof.
  induction fuel as [| fuel IH]; simpl.
  - intros w. apply R_refl.
  - apply respects_bind; [apply respects_call |]. intros cmd.
    apply respects_bind; [apply R_send |]. intros response.
    apply respects_bind; [apply R_process |]. intros stop.
    destruct stop; [apply respects_ret | exact IH].
Qed.

End Respects.

Lemma steady_ret {A} (a : A) : steady (ret a).
Proof. apply (respects_ret advances adv_refl). Qed.

Lemma steady_call {A} (r : outcome A) : steady (call r).
Proof. apply (respects_call advances adv_refl). Qed.

Lemma steady_bind {A B} (m : M A) (k : A -> M B) :
  steady m -> (forall a, steady (k a)) -> steady (bind m k).
Proof. apply (respects_bind advances adv_trans). Qed.

Lemma steady_try {A} (body handler : M A) :
  steady body -> steady handler -> steady (try_except_serial body handler).
Proof. apply (respects_try advances adv_trans). Qed.

Lemma steady_emit (e : event) : table_free e = true -> steady (emit e).
Proof.
  intros He w. unfold emit. simpl. apply (adv_event w e (written w) He).
Qed.

Lemma advances_log (ls : list line) (w : world) :
  forallb (fun l => table_free (Print l)) ls = true -> advances w (log ls w).
Proof.
  revert w. induction ls as [| l ls IH]; intros w H.
  - rewrite log_nil. apply adv_refl.
  - simpl in H. apply andb_true_iff in H. destruct H as [Hl Hls].
    change (l :: ls) with ([l] ++ ls). rewrite <- log_log.
    eapply adv_trans; [| apply IH, Hls].
    apply (adv_event w (Print l) (written w) Hl).
Qed.

Lemma steady_process_response (r : list byte) (debug : bool) :
  steady (process_response (Some r) debug).
Proof.
  intros w. rewrite process_response_classify.
  destruct (classify r); unfold conclude; simpl snd;
    try (apply advances_log; reflexivity).
  - apply advances_log. destruct debug; reflexivity.
  - unfold reported. rewrite map_app, app_assoc.
    eapply adv_trans.
    + apply (advances_log (debug_lines debug (bytes_to_hex_array r)) w).
      destruct debug; reflexivity.
    + apply (adv_device (log (debug_lines debug (bytes_to_hex_array r)) w)).
Qed.

Lemma steady_send_command (bus : serial_bus) (ser : Z) (command : list byte) :
  steady (send_command bus ser command).
Proof.
  intros w. unfold send_command.
  destruct (exchange bus ser (written w) command) as [raw |]; simpl snd.
  - apply (adv_trans w
             {| device_counter := device_counter w;
                written := S (written w);
                trace := trace w ++ [SerialWrite ser command] |}).
    + apply (adv_event w (SerialWrite ser command) (S (written w))). reflexivity.
    + apply (adv_event
               {| device_counter := device_counter w;
                  written := S (written w);
                  trace := trace w ++ [SerialWrite ser command] |}
               (SerialRead ser raw) (S (written w))).
      reflexivity.
  - apply (adv_event w (SerialWrite ser command) (S (written w))). reflexivity.
Qed.

Lemma steady_continue_scan (fuel : nat) (bus : serial_bus) (ser : Z) (debug : bool) :
  steady (continue_scan fuel bus ser debug).
Proof.
  apply (respects_continue_scan advances adv_refl adv_trans).
  - intros c. apply steady_send_command.
  - intros r d. apply steady_process_response.
Qed.

Lemma steady_scan_at (fuel : nat) (bus : serial_bus) (port : string)
    (debug : bool) (baud_rate : Z) :
  steady (scan_at fuel bus port debug baud_rate).
Proof.
  unfold scan_at.
  apply steady_bind; [apply steady_emit; reflexivity |]. intros _.
  apply steady_try; [| apply steady_emit; reflexivity].
  apply steady_bind.
  { intros w. unfold serial_open.
    destruct (can_open bus port baud_rate); simpl snd;
      apply (adv_event w (SerialOpen port baud_rate) 0%nat); reflexivity. }
  intros ser.
  apply steady_bind; [apply steady_call |]. intros cmd.
  apply steady_bind; [apply steady_send_command |]. intros response.
  apply steady_bind; [apply steady_process_response |]. intros stop.
  apply steady_bind.
  { destruct stop; simpl; [apply steady_ret | apply steady_continue_scan]. }
  intros _. apply steady_emit. reflexivity.
Qed.

Lemma steady_for_each {A} (xs : list A) (body : A -> M unit) :
  (forall x, steady (body x)) -> steady (for_each xs body).
Proof. apply (respects_for_each advances adv_refl adv_trans). Qed.

Lemma steady_main (fuel : nat) (bus : serial_bus) (port : string) (debug : bool) :
  steady (main fuel bus port debug).
Proof.
  apply steady_for_each. intros baud_rate. apply steady_scan_at.
Qed.

(** ** Numbering of the table *)

Lemma row_numbers_app (t u : list event) :
  row_numbers (t ++ u) = row_numbers t ++ row_numbers u.
Proof. unfold row_numbers. apply flat_map_app. Qed.

Lemma header_count_app (t u : list event) :
  header_count (t ++ u) = (header_count t + header_count u)%nat.
Proof. unfold header_count. rewrite filter_app, length_app. reflexivity. Qed.

Lemma table_free_rows (e : event) : table_free e = true -> row_numbers [e] = [].
Proof. destruct e as [[] | | | |]; intros H; try reflexivity; discriminate H. Qed.

Lemma table_free_header (e : event) : table_free e = true -> header_count [e] = 0%nat.
Proof. destruct e as [[] | | | |]; intros H; try reflexivity; discriminate H. Qed.

Lemma one_to_succ (n : nat) : one_to (S n) = one_to n ++ [Z.of_nat (S n)].
Proof. unfold one_to. rewrite seq_S, map_app. reflexivity. Qed.

Lemma table_numbered_event (w : world) (e : event) (n : nat) :
  table_free e = true ->
  table_numbered w ->
  table_numbered {| device_counter := device_counter w;
                    written := n;
                    trace := trace w ++ [e] |}.
Proof.
  intros He (H0 & Hr & Hh & Hfirst). unfold table_numbered. simpl.
  split; [exact H0 |]. split; [| split].
  - rewrite row_numbers_app, (table_free_rows e He), app_nil_r. exact Hr.
  - rewrite header_count_app, (table_free_header e He), Nat.add_0_r. exact Hh.
  - intros Hpos. destruct (Hfirst Hpos) as (pre & s & a & post & Et & Hpre).
    exists pre, s, a, (post ++ [e]). split; [| exact Hpre].
    rewrite Et, <- !app_assoc. reflexivity.
Qed.

Lemma table_numbered_device (w : world) (s a : Z) :
  table_numbered w ->
  table_numbered {| device_counter := device_counter w + 1;
                    written := written w;
                    trace := trace w ++
                             map Print (device_lines (device_counter w) s a) |}.
Proof.
  intros (H0 & Hr & Hh & Hfirst). unfold table_numbered. simpl.
  split; [lia |].
  assert (Hn : Z.to_nat (device_counter w + 1) = S (Z.to_nat (device_counter w)))
    by lia.
  unfold device_lines.
  destruct (Z.eq_dec (device_counter w) 0) as [E | E].
  - rewrite E in *. simpl. split; [| split].
    + rewrite row_numbers_app, Hr. reflexivity.
    + rewrite header_count_app, Hh. reflexivity.
    + intros _. exists (trace w), s, a, []. split; [reflexivity | exact Hr].
  - replace (device_counter w + 1 =? 1) with false
      by (symmetry; apply Z.eqb_neq; lia).
    replace (device_counter w + 1 =? 0) with false
      by (symmetry; apply Z.eqb_neq; lia).
    replace (device_counter w =? 0) with false in Hh
      by (symmetry; apply Z.eqb_neq; lia).
    simpl. split; [| split].
    + rewrite row_numbers_app, Hr, Hn, one_to_succ. simpl.
      f_equal. f_equal. lia.
    + rewrite header_count_app, Hh. reflexivity.
    + intros _. destruct Hfirst as (pre & s1 & a1 & post & Et & Hpre); [lia |].
      exists pre, s1, a1, (post ++ [Print (TableRow (device_counter w + 1) s a)]).
      split; [| exact Hpre]. rewrite Et, <- !app_assoc. reflexivity.
Qed.

Lemma advances_table_numbered (w w' : world) :
  advances w w' -> table_numbered w -> table_numbered w'.
Proof.
  induction 1 as [w | w e n He | w s a | w1 w2 w3 _ IH1 _ IH2]; intros Hw.
  - exact Hw.
  - apply table_numbered_event; assumption.
  - apply table_numbered_device; assumption.
  - apply IH2, IH1, Hw.
Qed.

Lemma table_numbered_initial : table_numbered initial_world.
Proof.
  unfold table_numbered, initial_world. simpl.
  repeat split; try reflexivity; lia.
Qed.

Lemma process_response_returns (r : list byte) (debug : bool) (w : world) :
  exists stop w', process_response (Some r) debug w = (Ok stop, w').
Proof.
  rewrite process_response_classify.
  destruct (classify r); unfold conclude; eexists; eexists; reflexivity.
Qed.

(** The counter after one answer. *)
Lemma process_response_counter (r : list byte) (debug : bool) (w : world) :
  device_counter (snd (process_response (Some r) debug w))
  = device_counter w + (if is_device r then 1 else 0).
Proof.
  rewrite process_response_classify. unfold is_device.
  destruct (classify r); simpl; lia.
Qed.

Lemma process_all_cons (r : list byte) (rs : list (list byte)) (debug : bool)
    (w : world) :
  process_all (r :: rs) debug w
  = process_all rs debug (snd (process_response (Some r) debug w)).
Proof.
  destruct (process_response_returns r debug w) as (stop & w1 & E).
  unfold process_all. cbn [for_each]. unfold bind.
  rewrite E. reflexivity.
Qed.

Lemma process_all_counter (rs : list (list byte)) (debug : bool) (w : world) :
  device_counter (snd (process_all rs debug w))
  = device_counter w + Z.of_nat (length (filter is_device rs)).
Proof.
  revert w. induction rs as [| r rs IH]; intros w.
  - simpl. lia.
  - rewrite process_all_cons, IH, process_response_counter.
    simpl filter. destruct (is_device r); simpl length; lia.
Qed.

Lemma steady_process_all (rs : list (list byte)) (debug : bool) :
  steady (process_all rs debug).
Proof.
  apply steady_for_each. intros r.
  apply steady_bind; [apply steady_process_response | intros _; apply steady_ret].
Qed.

(** C9.  In every run of [main], however far it gets, and after any
    sequence of calls of [process_response] from the initial state, the rows
    of the device table carry the numbers 1, 2, 3, ... in this order, one per
    decoded device; the counter is shared by all rates and never reset; the
    header is printed once when there is a row (and not at all otherwise),
    and it comes with the rule directly before row 1, which precedes every
    other row. *)
Theorem table_rows_numbered_from_one :
  (forall fuel bus port debug,
     table_numbered (snd (main fuel bus port debug initial_world))) /\
  (forall responses debug,
     let w := snd (process_all responses debug initial_world) in
     table_numbered w /\
     row_numbers (trace w) = one_to (length (filter is_device responses))) /\
  (forall r debug w serial_number modbus_address,
     classify r = DeviceFound serial_number modbus_address ->
     row_numbers (trace (snd (process_response (Some r) debug w)))
     = row_numbers (trace w) ++ [device_counter w + 1] /\
     device_counter (snd (process_response (Some r) debug w))
     = device_counter w + 1).
Proof.
  split; [| split].
  - intros fuel bus port debug.
    apply (advances_table_numbered initial_world).
    + apply steady_main.
    + apply table_numbered_initial.
  - intros responses debug w.
    assert (Hw : table_numbered w).
    { apply (advances_table_numbered initial_world).
      - apply steady_process_all.
      - apply table_numbered_initial. }
    split; [exact Hw |].
    destruct Hw as (_ & Hr & _). rewrite Hr. unfold w.
    rewrite process_all_counter. simpl device_counter.
    rewrite Z.add_0_l, Nat2Z.id. reflexivity.
  - intros r debug w s a Hv. rewrite process_response_classify, Hv.
    unfold conclude, reported. simpl snd. simpl device_counter. simpl trace.
    split; [| reflexivity].
    rewrite row_numbers_app. f_equal.
    unfold row_numbers. rewrite map_app, flat_map_app.
    unfold device_lines.
    destruct debug; destruct (device_counter w + 1 =? 1); reflexivity.
Qed.

Lemma table_rows_numbered_from_one_witness :
  row_numbers
    (trace (snd (process_response
                   (Some [xfd; x46; x03; x00; x00; x01; x2c; x05; x24; x22])
                   false initial_world)))
  = row_numbers (trace initial_world) ++ [device_counter initial_world + 1] /\
  device_counter
    (snd (process_response
            (Some [xfd; x46; x03; x00; x00; x01; x2c; x05; x24; x22])
            false initial_world))
  = device_counter initial_world + 1.
Proof.
  apply (proj2 (proj2 table_rows_numbered_from_one)
           [xfd; x46; x03; x00; x00; x01; x2c; x05; x24; x22] false
           initial_world 300 5).
  vm_compute. reflexivity.
Defined.

(** ** The sweep *)







Lemma start_scan_command :
  create_command BROADCAST_ADDRESS EXTENDED_FUNCTION_CODE START_SCAN_SUBCOMMAND
  = Ok [xfd; x46; x01; x13; x90].
Proof. vm_compute. reflexivity. Qed.

Lemma continue_scan_command :
  create_command BROADCAST_ADDRESS EXTENDED_FUNCTION_CODE CONTINUE_SCAN_SUBCOMMAND
  = Ok [xfd; x46; x02; x53; x91].
Proof. vm_compute. reflexivity. Qed.


Lemma scan_at_session (fuel : nat) (bus : serial_bus) (port : string)
    (debug : bool) (baud_rate : Z) :
  scan_at fuel bus port debug baud_rate
  = (print (MsgScanning baud_rate) ;;
     try_except_serial
       (ser <- serial_open bus port baud_rate ;; session fuel bus debug ser)
       (print (MsgPortError baud_rate))).
Proof. reflexivity. Qed.

(** One rate, when the port opens: the session runs, and a
    [SerialException] in it is caught and reported. *)
Lemma scan_at_open (fuel : nat) (bus : serial_bus) (port : string)
    (debug : bool) (baud_rate : Z) (w : world) :
  can_open bus port baud_rate = true ->
  scan_at fuel bus port debug baud_rate w
  = match session fuel bus debug baud_rate (opened port baud_rate w) with
    | (Raise SerialException, w') => print (MsgPortError baud_rate) w'
    | r => r
    end.
Proof.
  intros Hopen. rewrite scan_at_session.
  unfold bind at 1, print at 1, emit at 1, try_except_serial.
  unfold bind at 1, serial_open. cbn [device_counter written trace].
  rewrite Hopen. unfold opened. rewrite <- app_assoc. reflexivity.
Qed.

(** One rate, when the port does not open: the failure is reported and
    nothing is sent. *)
Lemma scan_at_closed (fuel : nat) (bus : serial_bus) (port : string)
    (debug : bool) (baud_rate : Z) (w : world) :
  can_open bus port baud_rate = false ->
  scan_at fuel bus port debug baud_rate w
  = (Ok tt, log [MsgPortError baud_rate] (opened port baud_rate w)).
Proof.
  intros Hopen. rewrite scan_at_session.
  unfold bind at 1, print at 1, emit at 1, try_except_serial.
  unfold bind at 1, serial_open. cbn [device_counter written trace].
  rewrite Hopen. unfold opened, log, print, emit. cbn [device_counter written trace map].
  rewrite <- !app_assoc. reflexivity.
Qed.



Lemma written_at_app (b : Z) (t u : list event) :
  written_at b (t ++ u) = written_at b t ++ written_at b u.
Proof. unfold written_at. apply flat_map_app. Qed.




(** ** Termination of the sweep *)

Lemma process_response_stops (r : list byte) (debug : bool) (w : world) :
  fst (process_response (Some r) debug w) = Ok (stops r) /\
  written (snd (process_response (Some r) debug w)) = written w.
Proof.
  unfold stops. rewrite !process_response_classify.
  destruct (classify r); auto.
Qed.

Lemma continue_command_bytes :
  command_bytes CONTINUE_SCAN_SUBCOMMAND = [xfd; x46; x02; x53; x91].
Proof. vm_compute. reflexivity. Qed.

Lemma start_command_bytes :
  command_bytes START_SCAN_SUBCOMMAND = [xfd; x46; x01; x13; x90].
Proof. vm_compute. reflexivity. Qed.

(** One turn of the loop. *)
Lemma continue_scan_turn (bus : serial_bus) (ser : Z) (debug : bool)
    (fuel : nat) (w : world) :
  continue_scan (S fuel) bus ser debug w
  = match exchange bus ser (written w) [xfd; x46; x02; x53; x91] with
    | None =>
        (Raise SerialException,
         {| device_counter := device_counter w;
            written := S (written w);
            trace := trace w ++ [SerialWrite ser [xfd; x46; x02; x53; x91]] |})
    | Some raw =>
        let w1 :=
          {| device_counter := device_counter w;
             written := S (written w);
             trace := (trace w ++ [SerialWrite ser [xfd; x46; x02; x53; x91]])
                      ++ [SerialRead ser raw] |} in
        let w2 := snd (process_response (Some (denoise raw)) debug w1) in
        if stops (denoise raw) then (Ok tt, w2)
        else continue_scan fuel bus ser debug w2
    end.
Proof.
  cbn [continue_scan]. unfold bind at 1, call at 1.
  rewrite continue_scan_command. unfold bind at 1, send_command.
  destruct (exchange bus ser (written w) [xfd; x46; x02; x53; x91]) as [raw |];
    [| reflexivity].
  cbn [device_counter written trace]. unfold bind at 1.
  match goal with
  | |- context [process_response (Some ?r) debug ?w1] =>
      destruct (process_response_stops r debug w1) as [Hs _];
      destruct (process_response (Some r) debug w1) as [o w2]
  end.
  cbn [fst] in Hs. rewrite Hs. cbn [snd].
  destruct (stops (denoise raw)); reflexivity.
Qed.


(** The start of a session. *)
Lemma session_start (bus : serial_bus) (ser : Z) (debug : bool)
    (fuel : nat) (w : world) :
  session fuel bus debug ser w
  = match exchange bus ser (written w) [xfd; x46; x01; x13; x90] with
    | None =>
        (Raise SerialException,
         {| device_counter := device_counter w;
            written := S (written w);
            trace := trace w ++ [SerialWrite ser [xfd; x46; x01; x13; x90]] |})
    | Some raw =>
        let w1 :=
          {| device_counter := device_counter w;
             written := S (written w);
             trace := (trace w ++ [SerialWrite ser [xfd; x46; x01; x13; x90]])
                      ++ [SerialRead ser raw] |} in
        let w2 := snd (process_response (Some (denoise raw)) debug w1) in
        if stops (denoise raw) then serial_close ser w2
        else
          match continue_scan fuel bus ser debug w2 with
          | (Ok _, w3) => serial_close ser w3
          | (Raise e, w3) => (Raise e, w3)
          | (OutOfFuel, w3) => (OutOfFuel, w3)
          end
    end.
Proof.
  unfold session, bind, call. rewrite start_scan_command. unfold send_command.
  destruct (exchange bus ser (written w) [xfd; x46; x01; x13; x90]) as [raw |];
    [| reflexivity].
  cbn [device_counter written trace].
  match goal with
  | |- context [process_response (Some ?r) debug ?w1] =>
      destruct (process_response_stops r debug w1) as [Hs _];
      destruct (process_response (Some r) debug w1) as [o w2]
  end.
  cbn [fst] in Hs. rewrite Hs. cbn [snd].
  destruct (stops (denoise raw)); cbn [negb]; [reflexivity |].
  destruct (continue_scan fuel bus ser debug w2) as [[[] | e |] w3]; reflexivity.
Qed.






(** * Further properties *)

(** ** Frames with their checksum *)

Lemma drop_last2_app2 {A} (p : list A) (a b : A) :
  Py.drop_last2 (p ++ [a; b]) = p.
Proof.
  unfold Py.drop_last2. rewrite length_app. simpl length.
  replace (length p + 2 - 2)%nat with (length p + 0)%nat by lia.
  rewrite firstn_app_2. simpl. apply app_nil_r.
Qed.

Lemma last2_app2 {A} (p : list A) (a b : A) :
  Py.last2 (p ++ [a; b]) = [a; b].
Proof.
  unfold Py.last2. rewrite length_app. simpl length.
  replace (length p + 2 - 2)%nat with (length p + 0)%nat by lia.
  rewrite skipn_app, Nat.add_0_r, skipn_all.
  replace (length p - length p)%nat with 0%nat by lia. reflexivity.
Qed.

Lemma crc_tail_matches (payload : list byte) (lo hi : byte) :
  Py.to_bytes_2_little (calculate_crc payload) = Ok [lo; hi] ->
  crc_matches (payload ++ [lo; hi]).
Proof.
  intros E.
  destruct (to_bytes_2_little_ok _ (calculate_crc_word payload))
    as (lo' & hi' & E' & Vlo & Vhi).
  rewrite E in E'. injection E' as <- <-.
  unfold crc_matches, calculate_response_crc.
  rewrite last2_app2, drop_last2_app2.
  change (Py.int_from_bytes_little [lo; hi])
    with (byte_val lo + 256 * (byte_val hi + 256 * 0)).
  rewrite Vlo, Vhi. generalize (calculate_crc payload). intros c.
  pose proof (Z.div_mod c 256). lia.
Qed.

Lemma byte_of_int_inv (x : Z) (b : byte) :
  Py.byte_of_int x = Ok b -> 0 <= x < 256 /\ byte_val b = x.
Proof.
  unfold Py.byte_of_int.
  destruct ((0 <=? x) && (x <? 256)) eqn:R; [| discriminate].
  apply andb_true_iff in R. destruct R as [R1 R2].
  apply Z.leb_le in R1. apply Z.ltb_lt in R2.
  destruct (Byte.of_N (Z.to_N x)) as [b' |] eqn:E; [| discriminate].
  intros H. injection H as <-. split; [lia |].
  apply Byte.to_of_N in E. unfold byte_val. rewrite E. lia.
Qed.

Lemma byte_of_int_out_of_range (x : Z) :
  ~ 0 <= x < 256 -> Py.byte_of_int x = Raise ValueError.
Proof.
  intros H. unfold Py.byte_of_int.
  destruct ((0 <=? x) && (x <? 256)) eqn:R; [| reflexivity].
  apply andb_true_iff in R. destruct R as [R1 R2].
  apply Z.leb_le in R1. apply Z.ltb_lt in R2. lia.
Qed.

Lemma create_command_in_range (broadcast function_code subcommand : Z) :
  0 <= broadcast < 256 -> 0 <= function_code < 256 -> 0 <= subcommand < 256 ->
  exists b0 b1 b2 lo hi,
    create_command broadcast function_code subcommand = Ok [b0; b1; b2; lo; hi] /\
    byte_val b0 = broadcast /\ byte_val b1 = function_code /\
    byte_val b2 = subcommand /\
    Py.to_bytes_2_little (calculate_crc [b0; b1; b2]) = Ok [lo; hi].
Proof.
  intros H0 H1 H2.
  destruct (byte_of_int_ok _ H0) as (b0 & E0 & V0).
  destruct (byte_of_int_ok _ H1) as (b1 & E1 & V1).
  destruct (byte_of_int_ok _ H2) as (b2 & E2 & V2).
  destruct (to_bytes_2_little_ok _ (calculate_crc_word [b0; b1; b2]))
    as (lo & hi & Et & _).
  exists b0, b1, b2, lo, hi.
  unfold create_command. rewrite E0, E1, E2. cbn [and_next]. rewrite Et.
  cbn [and_next app]. auto.
Qed.

Lemma create_command_out_of_range (broadcast function_code subcommand : Z) :
  ~ (0 <= broadcast < 256 /\ 0 <= function_code < 256 /\ 0 <= subcommand < 256) ->
  create_command broadcast function_code subcommand = Raise ValueError.
Proof.
  intros H. unfold create_command.
  destruct (Z_le_dec 0 broadcast) as [A1 |];
    [destruct (Z_lt_dec broadcast 256) as [A2 |] |];
    try (rewrite (byte_of_int_out_of_range broadcast) by lia; reflexivity).
  destruct (byte_of_int_ok broadcast (conj A1 A2)) as (b0 & -> & _).
  cbn [and_next].
  destruct (Z_le_dec 0 function_code) as [F1 |];
    [destruct (Z_lt_dec function_code 256) as [F2 |] |];
    try (rewrite (byte_of_int_out_of_range function_code) by lia; reflexivity).
  destruct (byte_of_int_ok function_code (conj F1 F2)) as (b1 & -> & _).
  cbn [and_next].
  rewrite (byte_of_int_out_of_range subcommand) by lia. reflexivity.
Qed.

Lemma create_command_inv (broadcast function_code subcommand : Z) (c : list byte) :
  create_command broadcast function_code subcommand = Ok c ->
  exists b0 b1 b2 lo hi,
    c = [b0; b1; b2; lo; hi] /\
    byte_val b0 = broadcast /\ byte_val b1 = function_code /\
    byte_val b2 = subcommand /\
    Py.to_bytes_2_little (calculate_crc [b0; b1; b2]) = Ok [lo; hi].
Proof.
  intros H.
  assert (R : 0 <= broadcast < 256 /\ 0 <= function_code < 256 /\
              0 <= subcommand < 256).
  { destruct (Z_le_dec 0 broadcast); [| rewrite create_command_out_of_range in H by lia; discriminate H].
    destruct (Z_lt_dec broadcast 256); [| rewrite create_command_out_of_range in H by lia; discriminate H].
    destruct (Z_le_dec 0 function_code); [| rewrite create_command_out_of_range in H by lia; discriminate H].
    destruct (Z_lt_dec function_code 256); [| rewrite create_command_out_of_range in H by lia; discriminate H].
    destruct (Z_le_dec 0 subcommand); [| rewrite create_command_out_of_range in H by lia; discriminate H].
    destruct (Z_lt_dec subcommand 256); [| rewrite create_command_out_of_range in H by lia; discriminate H].
    lia. }
  destruct R as (R0 & R1 & R2).
  destruct (create_command_in_range _ _ _ R0 R1 R2)
    as (b0 & b1 & b2 & lo & hi & E & V).
  rewrite E in H. injection H as <-.
  exists b0, b1, b2, lo, hi. split; [reflexivity | exact V].
Qed.

(** X1.  Every command that [create_command] builds carries a matching
    checksum, as does every payload followed by the two bytes of its own
    CRC16, low byte first.  Read back by [process_response], a built command
    is never a checksum mismatch, and it stops the scan exactly when it is the
    end-scan command FD 46 04. *)
Theorem built_command_passes_check :
  (forall payload, exists lo hi,
     Py.to_bytes_2_little (calculate_crc payload) = Ok [lo; hi] /\
     crc_matches (payload ++ [lo; hi])) /\
  (forall broadcast function_code subcommand c debug w,
     create_command broadcast function_code subcommand = Ok c ->
     crc_matches c /\
     fst (process_response (Some c) debug w)
     = Ok ((broadcast =? 0xFD) && (function_code =? 0x46) && (subcommand =? 0x04))).
Proof.
  split.
  - intros payload.
    destruct (to_bytes_2_little_ok _ (calculate_crc_word payload))
      as (lo & hi & Et & _).
    exists lo, hi. split; [exact Et | apply crc_tail_matches, Et].
  - intros a f s c debug w H.
    destruct (create_command_inv _ _ _ _ H)
      as (b0 & b1 & b2 & lo & hi & -> & V0 & V1 & V2 & Et).
    assert (Hc : crc_matches [b0; b1; b2; lo; hi])
      by (apply (crc_tail_matches [b0; b1; b2]), Et).
    split; [exact Hc |].
    rewrite process_response_classify.
    apply crc_matchesb_iff in Hc. unfold classify. rewrite Hc. cbn [negb].
    unfold BROADCAST_ADDRESS, EXTENDED_FUNCTION_CODE, END_SCAN_SUBCOMMAND,
      RESPONSE_SUBCOMMAND.
    rewrite V0, V1, V2.
    destruct (a =? 253); [| reflexivity].
    destruct (f =? 70); [| reflexivity].
    destruct (s =? 4); [reflexivity |].
    destruct (s =? 3); reflexivity.
Qed.

Lemma built_command_passes_check_witness :
  crc_matches [xfd; x46; x02; x53; x91] /\
  fst (process_response (Some [xfd; x46; x02; x53; x91]) false initial_world)
  = Ok ((0xFD =? 0xFD) && (0x46 =? 0x46) && (0x02 =? 0x04)).
Proof.
  apply (proj2 built_command_passes_check 0xFD 0x46 0x02).
  vm_compute. reflexivity.
Defined.

(** X2.  An argument outside [range(256)] makes [create_command] raise
    [ValueError]; no command is built. *)
Theorem create_command_rejects_non_bytes (broadcast function_code subcommand : Z) :
  ~ (0 <= broadcast < 256 /\ 0 <= function_code < 256 /\ 0 <= subcommand < 256) ->
  create_command broadcast function_code subcommand = Raise ValueError.
Proof.
  apply create_command_out_of_range.
Qed.

Lemma create_command_rejects_non_bytes_witness :
  create_command 0xFD 0x46 256 = Raise ValueError.
Proof.
  apply create_command_rejects_non_bytes. lia.
Defined.

(** ** Error detection *)

Lemma testbit_high (a n : Z) :
  0 <= n -> 0 <= a -> Z.testbit a n = true -> 2 ^ n <= a.
Proof.
  intros Hn Ha Hb. destruct (Z_lt_dec a (2 ^ n)) as [L |]; [| lia].
  exfalso. destruct (Z.eq_dec a 0) as [-> | N].
  - rewrite Z.testbit_0_l in Hb. discriminate.
  - rewrite Z.bits_above_log2 in Hb; [discriminate | lia |].
    apply Z.log2_lt_pow2; lia.
Qed.

Lemma testbit_low (a n : Z) :
  0 <= n -> 0 <= a < 2 ^ n -> Z.testbit a n = false.
Proof.
  intros Hn Ha. destruct (Z.eq_dec a 0) as [-> | N].
  - apply Z.testbit_0_l.
  - apply Z.bits_above_log2; [lia |]. apply Z.log2_lt_pow2; lia.
Qed.

(** The shift with the polynomial sets the top bit, the plain shift leaves
    it clear. *)
Lemma round_odd_high (q : Z) : 0 <= q < 32768 -> 32768 <= Z.lxor q 0xA001.
Proof.
  intros H. apply (testbit_high _ 15); [lia | apply Z.lxor_nonneg; lia |].
  rewrite Z.lxor_spec, (testbit_low q 15) by (simpl; lia). reflexivity.
Qed.

Lemma lxor_cancel_r (a b c : Z) : Z.lxor a c = Z.lxor b c -> a = b.
Proof.
  intros H.
  rewrite <- (Z.lxor_0_r a), <- (Z.lxor_0_r b), <- (Z.lxor_nilpotent c).
  rewrite <- !Z.lxor_assoc, H. reflexivity.
Qed.

Lemma lxor_cancel_l (a b c : Z) : Z.lxor c a = Z.lxor c b -> a = b.
Proof.
  rewrite !(Z.lxor_comm c). apply lxor_cancel_r.
Qed.

Lemma crc_shift_inj (x y : Z) :
  0 <= x < 65536 -> 0 <= y < 65536 -> crc_shift x = crc_shift y -> x = y.
Proof.
  intros Hx Hy. rewrite !crc_shift_round. unfold Reference.round. cbv zeta.
  assert (Qx : 0 <= x / 2 < 32768)
    by (split; [apply Z.div_pos; lia | apply Z.div_lt_upper_bound; lia]).
  assert (Qy : 0 <= y / 2 < 32768)
    by (split; [apply Z.div_pos; lia | apply Z.div_lt_upper_bound; lia]).
  pose proof (Zmod_odd x) as Ox. pose proof (Zmod_odd y) as Oy.
  pose proof (Z.div_mod x 2) as Dx. pose proof (Z.div_mod y 2) as Dy.
  destruct (Z.odd x), (Z.odd y); intros E.
  - apply lxor_cancel_r in E. lia.
  - pose proof (round_odd_high _ Qx). lia.
  - pose proof (round_odd_high _ Qy). lia.
  - lia.
Qed.

Lemma shifts_word (n : nat) (x : Z) :
  0 <= x < 65536 -> 0 <= Nat.iter n crc_shift x < 65536.
Proof.
  intros H. induction n as [| n IH]; simpl; [exact H | apply crc_shift_word, IH].
Qed.

Lemma shifts_inj (n : nat) (x y : Z) :
  0 <= x < 65536 -> 0 <= y < 65536 ->
  Nat.iter n crc_shift x = Nat.iter n crc_shift y -> x = y.
Proof.
  intros Hx Hy. induction n as [| n IH]; simpl; [auto |].
  intros E. apply IH. apply crc_shift_inj; [apply shifts_word, Hx | apply shifts_word, Hy | exact E].
Qed.

Lemma lxor_byte_word (crc : Z) (b : byte) :
  0 <= crc < 65536 -> 0 <= Z.lxor crc (byte_val b) < 65536.
Proof.
  intros H. pose proof (byte_val_range b). apply (lxor_word 16); lia.
Qed.

(** Two different accumulators stay different after the same byte, and
    two different bytes take the same accumulator to different ones. *)
Lemma crc_update_inj_crc (x y : Z) (b : byte) :
  0 <= x < 65536 -> 0 <= y < 65536 ->
  crc_update x b = crc_update y b -> x = y.
Proof.
  intros Hx Hy E. unfold crc_update in E.
  apply shifts_inj in E; try (apply lxor_byte_word; assumption).
  apply lxor_cancel_r in E. exact E.
Qed.

Lemma crc_update_inj_byte (x : Z) (a b : byte) :
  0 <= x < 65536 -> crc_update x a = crc_update x b -> a = b.
Proof.
  intros Hx E. unfold crc_update in E.
  apply shifts_inj in E; try (apply lxor_byte_word; assumption).
  apply lxor_cancel_l in E. apply byte_val_inj, E.
Qed.

Lemma fold_crc_inj (data : list byte) (x y : Z) :
  0 <= x < 65536 -> 0 <= y < 65536 ->
  fold_left crc_update data x = fold_left crc_update data y -> x = y.
Proof.
  revert x y. induction data as [| b data IH]; intros x y Hx Hy E; simpl in E.
  - exact E.
  - apply IH in E; try (apply crc_update_word; assumption).
    apply crc_update_inj_crc in E; assumption.
Qed.

Lemma crc_one_byte_changed (pre post : list byte) (a b : byte) :
  calculate_crc (pre ++ a :: post) = calculate_crc (pre ++ b :: post) -> a = b.
Proof.
  unfold calculate_crc. rewrite !fold_left_app. simpl fold_left.
  set (c := fold_left crc_update pre 65535).
  assert (Hc : 0 <= c < 65536) by (apply fold_crc_word; lia).
  intros E. apply fold_crc_inj in E; try (apply crc_update_word; assumption).
  apply crc_update_inj_byte in E; assumption.
Qed.

Lemma split_last2 {A} (l : list A) :
  (2 <= length l)%nat -> exists p a b, l = p ++ [a; b].
Proof.
  intros H. destruct (exists_last (l := l)) as (l1 & b & ->).
  { intros ->. simpl in H. lia. }
  rewrite length_app in H. simpl in H.
  destruct (exists_last (l := l1)) as (p & a & ->).
  { intros ->. simpl in H. lia. }
  exists p, a, b. rewrite <- app_assoc. reflexivity.
Qed.

Lemma crc_matches_app2 (p : list byte) (a b : byte) :
  crc_matches (p ++ [a; b]) <->
  byte_val a + 256 * byte_val b = calculate_crc p.
Proof.
  unfold crc_matches, calculate_response_crc.
  rewrite last2_app2, drop_last2_app2.
  change (Py.int_from_bytes_little [a; b])
    with (byte_val a + 256 * (byte_val b + 256 * 0)).
  split; intros H; lia.
Qed.

Lemma one_byte_changed_mismatch (pre post : list byte) (b b' : byte) :
  crc_matches (pre ++ b :: post) -> b <> b' ->
  ~ crc_matches (pre ++ b' :: post).
Proof.
  intros Hm Hne Hm'.
  destruct (Nat.le_gt_cases 2 (length post)) as [L | L].
  - destruct (split_last2 post L) as (p & x & y & ->).
    change (b :: p ++ [x; y]) with ((b :: p) ++ [x; y]) in Hm.
    change (b' :: p ++ [x; y]) with ((b' :: p) ++ [x; y]) in Hm'.
    rewrite app_assoc in Hm, Hm'.
    apply crc_matches_app2 in Hm, Hm'.
    apply Hne, (crc_one_byte_changed pre p). congruence.
  - destruct post as [| y [| z post]]; [| | simpl in L; lia].
    + destruct pre as [| x0 pre0] eqn:Epre.
      * apply crc_matchesb_iff in Hm. simpl in Hm.
        rewrite crc_one_byte in Hm. discriminate.
      * destruct (exists_last (l := pre)) as (p & x & E).
        { rewrite Epre. discriminate. }
        rewrite <- Epre, E, <- app_assoc in Hm, Hm'.
        apply crc_matches_app2 in Hm, Hm'.
        apply Hne, byte_val_inj. lia.
    + change (pre ++ [b; y]) with (pre ++ [b; y]) in Hm.
      apply crc_matches_app2 in Hm, Hm'.
      apply Hne, byte_val_inj. lia.
Qed.

Lemma process_response_mismatch (r : list byte) (debug : bool) (w : world) :
  r <> [] -> ~ crc_matches r ->
  process_response (Some r) debug w
  = (Ok false, log [MsgCrcError; MsgCrcDump (bytes_to_hex_array r)] w).
Proof.
  intros Hne Hc. rewrite process_response_classify.
  pose proof (classify_means r) as Hm.
  destruct (classify r); simpl in Hm; try reflexivity; tauto.
Qed.

(** X3.  Changing any one byte of an answer whose checksum matches, be it
    a byte of the payload or one of the two checksum bytes, gives an
    answer whose checksum does not match: [process_response] reports the
    checksum error, returns the continue value and reports no device. *)
Theorem one_corrupted_byte_is_detected (pre post : list byte) (b b' : byte)
    (debug : bool) (w : world) :
  crc_matches (pre ++ b :: post) ->
  b <> b' ->
  ~ crc_matches (pre ++ b' :: post) /\
  process_response (Some (pre ++ b' :: post)) debug w
  = (Ok false,
     log [MsgCrcError; MsgCrcDump (bytes_to_hex_array (pre ++ b' :: post))] w).
Proof.
  intros Hm Hne.
  assert (Hbad : ~ crc_matches (pre ++ b' :: post))
    by (apply (one_byte_changed_mismatch pre post b b'); assumption).
  split; [exact Hbad |].
  apply process_response_mismatch; [| exact Hbad].
  destruct pre; discriminate.
Qed.

Lemma one_corrupted_byte_is_detected_witness :
  ~ crc_matches [xfd; x46; x03; x00; x00; x01; x2d; x05; x24; x22] /\
  process_response
    (Some [xfd; x46; x03; x00; x00; x01; x2d; x05; x24; x22]) false initial_world
  = (Ok false,
     log [MsgCrcError;
          MsgCrcDump (bytes_to_hex_array
                        [xfd; x46; x03; x00; x00; x01; x2d; x05; x24; x22])]
       initial_world).
Proof.
  apply (one_corrupted_byte_is_detected
           [xfd; x46; x03; x00; x00; x01] [x05; x24; x22] x2c x2d false
           initial_world).
  - vm_compute. reflexivity.
  - discriminate.
Defined.

(** ** Hexadecimal text and the record parser *)

(** X4.  The texts that [bytes_to_hex_array] makes of an answer are as many
    as its bytes less the two checksum bytes (none for an answer of at most
    two bytes), each of the four characters [0x] and two hexadecimal digits,
    and [int(_, 16)] reads each of them back as the value of its byte. *)
Theorem hex_array_reads_back (r : list byte) :
  length (bytes_to_hex_array r) = (length r - 2)%nat /\
  ints_base16 (bytes_to_hex_array r) = Ok (map byte_val (Py.drop_last2 r)) /\
  Forall (fun s => String.length s = 4%nat) (bytes_to_hex_array r) /\
  (forall i b, nth_error (Py.drop_last2 r) i = Some b ->
     and_next (Py.index (bytes_to_hex_array r) i) Py.int_base16 = Ok (byte_val b)).
Proof.
  unfold bytes_to_hex_array. split; [| split; [| split]].
  - rewrite length_map. apply drop_last2_length.
  - apply ints_base16_format.
  - apply Forall_forall. intros s Hs. apply in_map_iff in Hs.
    destruct Hs as (b & <- & _). reflexivity.
  - intros i b Hb. unfold Py.index. rewrite nth_error_map, Hb.
    cbn [option_map and_next]. apply int_base16_format.
Qed.

Lemma hex_array_reads_back_witness :
  and_next (Py.index (bytes_to_hex_array [xfd; x46; x03; x24; x22]) 2)
    Py.int_base16 = Ok (byte_val x03).
Proof.
  apply (proj2 (proj2 (proj2 (hex_array_reads_back [xfd; x46; x03; x24; x22])))).
  reflexivity.
Defined.

Lemma index_short {A} (l : list A) (i : nat) :
  (length l <= i)%nat -> Py.index l i = Raise IndexError.
Proof.
  intros H. unfold Py.index. apply nth_error_None in H. rewrite H. reflexivity.
Qed.

Lemma parse_not_a_response (x0 x1 x2 : byte) (rest : list byte) (w : world) :
  byte_val x2 <> RESPONSE_SUBCOMMAND ->
  parse_and_print_response (map Py.format_0x02X (x0 :: x1 :: x2 :: rest)) w
  = (Ok tt, log [MsgNotAResponse] w).
Proof.
  intros H2. unfold parse_and_print_response.
  unfold bind at 1. simpl map. unfold call at 1, Py.index at 1. simpl nth_error.
  unfold bind at 1, call at 1. rewrite int_base16_format.
  apply Z.eqb_neq in H2. rewrite H2. reflexivity.
Qed.

(** X5.  [parse_and_print_response] on its own.  With fewer than three
    entries it raises [IndexError] and leaves the state alone.  On the texts
    of bytes it looks at the third entry first: unless that is 03 the answer
    is set aside as not a scan answer; then at the number of entries: unless
    there are eight the record is set aside as of the wrong size; else it
    counts and prints the device, whatever the first two entries are.  The
    counter moves in the last case only. *)
Theorem parse_and_print_response_cases :
  (forall hex_array w,
     (length hex_array < 3)%nat ->
     parse_and_print_response hex_array w = (Raise IndexError, w)) /\
  (forall x0 x1 x2 rest w,
     byte_val x2 <> 0x03 ->
     parse_and_print_response (map Py.format_0x02X (x0 :: x1 :: x2 :: rest)) w
     = (Ok tt, log [MsgNotAResponse] w)) /\
  (forall x0 x1 x2 rest w,
     byte_val x2 = 0x03 ->
     length rest <> 5%nat ->
     parse_and_print_response (map Py.format_0x02X (x0 :: x1 :: x2 :: rest)) w
     = (Ok tt, log [MsgBadRecordSize] w)) /\
  (forall x0 x1 x2 s0 s1 s2 s3 a w,
     byte_val x2 = 0x03 ->
     parse_and_print_response
       (map Py.format_0x02X [x0; x1; x2; s0; s1; s2; s3; a]) w
     = (Ok tt,
        reported false [] (be32 s0 s1 s2 s3) (byte_val a) w)).
Proof.
  split; [| split; [| split]].
  - intros hex_array w H. unfold parse_and_print_response, bind, call.
    rewrite index_short by lia. reflexivity.
  - intros. apply parse_not_a_response. assumption.
  - intros. apply parse_bad_size; assumption.
  - intros. rewrite parse_device by assumption. reflexivity.
Qed.

Lemma parse_and_print_response_cases_witness :
  parse_and_print_response
    (map Py.format_0x02X [x01; x02; x04; x00; x00; x00; x00; x07]) initial_world
  = (Ok tt, log [MsgNotAResponse] initial_world).
Proof.
  apply (proj1 (proj2 parse_and_print_response_cases)). vm_compute. discriminate.
Defined.

(** ** Fill bytes inside an answer *)

Lemma count_ff_in (raw : list byte) (b : byte) :
  In b raw -> byte_val b = 0xFF -> (0 < count_ff raw)%nat.
Proof.
  unfold count_ff. induction raw as [| x raw IH]; intros Hin Hb; [destruct Hin |].
  simpl. destruct Hin as [-> | Hin].
  - rewrite Hb. simpl. lia.
  - specialize (IH Hin Hb). destruct (byte_val x =? 255); simpl; lia.
Qed.

Lemma is_device_length (r : list byte) : is_device r = true -> length r = 10%nat.
Proof.
  unfold is_device. pose proof (classify_means r) as Hm.
  destruct (classify r); try discriminate. intros _.
  destruct Hm as (_ & x0 & x1 & x2 & s0 & s1 & s2 & s3 & a & c0 & c1 & -> & _).
  reflexivity.
Qed.

Lemma devices_app (t u : list event) : devices (t ++ u) = devices t ++ devices u.
Proof. unfold devices. apply flat_map_app. Qed.

Lemma devices_debug_lines (debug : bool) (hex_array : list string) :
  devices (map Print (debug_lines debug hex_array)) = [].
Proof. destruct debug; reflexivity. Qed.

(** The devices that one answer adds to the report. *)
Lemma process_response_devices (r : list byte) (debug : bool) (w : world) :
  devices (trace (snd (process_response (Some r) debug w)))
  = devices (trace w) ++
    match classify r with
    | DeviceFound serial_number modbus_address => [(serial_number, modbus_address)]
    | _ => []
    end.
Proof.
  rewrite process_response_classify.
  destruct (classify r); unfold conclude, log, reported; cbn [snd trace];
    rewrite ?map_app, devices_app, ?devices_app, ?devices_debug_lines;
    try reflexivity.
  unfold device_lines. destruct (device_counter w + 1 =? 1); reflexivity.
Qed.

(** X6.  An answer is decoded into a device only if exactly ten bytes are
    left of what was read once the 0xFF bytes are removed.  So a ten-byte
    answer that itself holds a byte 0xFF (in the serial number, the address
    or the checksum) is never reported: the counter and the reported devices
    stay as they were. *)
Theorem answer_holding_ff_is_lost :
  (forall raw debug w,
     device_counter (snd (process_response (Some (denoise raw)) debug w))
     <> device_counter w ->
     length raw = (10 + count_ff raw)%nat) /\
  (forall raw b debug w,
     length raw = 10%nat -> In b raw -> byte_val b = 0xFF ->
     device_counter (snd (process_response (Some (denoise raw)) debug w))
     = device_counter w /\
     devices (trace (snd (process_response (Some (denoise raw)) debug w)))
     = devices (trace w)).
Proof.
  split.
  - intros raw debug w H. rewrite process_response_counter in H.
    destruct (is_device (denoise raw)) eqn:D; [| lia].
    apply is_device_length in D. rewrite (denoise_length_count raw). lia.
  - intros raw b debug w L Hin Hb.
    pose proof (count_ff_in raw b Hin Hb) as Hc.
    pose proof (denoise_length_count raw) as Hl.
    assert (D : is_device (denoise raw) = false).
    { destruct (is_device (denoise raw)) eqn:D; [| reflexivity].
      apply is_device_length in D. lia. }
    split.
    + rewrite process_response_counter, D. lia.
    + rewrite process_response_devices. unfold is_device in D.
      destruct (classify (denoise raw)); try discriminate D; apply app_nil_r.
Qed.

Lemma answer_holding_ff_is_lost_witness :
  device_counter
    (snd (process_response
            (Some (denoise [xfd; x46; x03; x00; x00; x00; xff; x05; xd5; x9e]))
            false initial_world))
  = device_counter initial_world /\
  devices
    (trace (snd (process_response
                   (Some (denoise [xfd; x46; x03; x00; x00; x00; xff; x05; xd5; x9e]))
                   false initial_world)))
  = devices (trace initial_world).
Proof.
  apply (proj2 answer_holding_ff_is_lost
           [xfd; x46; x03; x00; x00; x00; xff; x05; xd5; x9e] xff false
           initial_world).
  - reflexivity.
  - simpl. tauto.
  - reflexivity.
Defined.

Lemma denoise_nil_iff (raw : list byte) :
  denoise raw = [] <-> Forall (fun b => byte_val b = 0xFF) raw.
Proof.
  induction raw as [| b raw IH]; simpl.
  - split; auto.
  - destruct (byte_val b =? 255) eqn:E; simpl.
    + apply Z.eqb_eq in E. rewrite IH. split.
      * intros H. constructor; assumption.
      * intros H. inversion H; assumption.
    + apply Z.eqb_neq in E. split; [discriminate |].
      intros H. inversion H; subst. contradiction.
Qed.

(** X7.  What [send_command] read makes [process_response] stop the scan
    of the rate exactly when it consists of 0xFF bytes only (nothing
    read included), or when its other bytes form an answer with a matching
    checksum that starts with FD 46 04.  Line noise of 0xFF alone thus ends
    the scan of a rate like silence does. *)
Theorem noise_only_ends_scan (raw : list byte) (debug : bool) (w : world) :
  fst (process_response (Some (denoise raw)) debug w) = Ok true <->
  Forall (fun b => byte_val b = 0xFF) raw \/
  (crc_matches (denoise raw) /\ has_header (denoise raw) 0xFD 0x46 0x04).
Proof.
  rewrite <- denoise_nil_iff, process_response_classify.
  pose proof (classify_means (denoise raw)) as Hm.
  destruct (classify (denoise raw)); simpl in Hm; unfold conclude; cbn [fst].
  - tauto.
  - split; [discriminate |]. intros [E | [Hc _]]; tauto.
  - split; [discriminate |]. intros [E | [_ Hh]]; tauto.
  - tauto.
  - split; [discriminate |]. destruct Hm as (Hc & Hh & _).
    intros [E | [_ Hh']].
    + exfalso. rewrite E in Hh.
      apply (has_header_short [] 0xFD 0x46 0x03); [simpl; lia | exact Hh].
    + pose proof (has_header_third _ _ _ _ _ _ _ Hh Hh'). lia.
  - split; [discriminate |].
    destruct Hm as (Hc & x0 & x1 & x2 & s0 & s1 & s2 & s3 & a & c0 & c1 & E & H0 & H1 & H2 & _).
    rewrite E. intros [E' | [_ Hh']]; [discriminate E' |].
    apply has_header_cons in Hh'. lia.
Qed.

(** ** The events of a session *)

Lemma process_response_lines (r : list byte) (debug : bool) (w : world) :
  exists ls,
    trace (snd (process_response (Some r) debug w)) = trace w ++ map Print ls /\
    Forall answer_line ls.
Proof.
  rewrite process_response_classify.
  destruct (classify r); unfold conclude, log, reported; cbn [snd trace];
    eexists; (split; [reflexivity |]);
    try (repeat constructor; fail).
  - destruct debug; repeat constructor.
  - unfold device_lines.
    destruct debug; destruct (device_counter w + 1 =? 1); repeat constructor.
Qed.

Lemma loop_event_prints (ser : Z) (ls : list line) :
  Forall answer_line ls -> Forall (loop_event ser) (map Print ls).
Proof.
  induction 1; simpl; constructor; assumption.
Qed.

Lemma continue_scan_events (bus : serial_bus) (ser : Z) (debug : bool)
    (fuel : nat) :
  forall w, exists ext,
    trace (snd (continue_scan fuel bus ser debug w)) = trace w ++ ext /\
    Forall (loop_event ser) ext /\
    (fst (continue_scan fuel bus ser debug w) = Ok tt \/
     fst (continue_scan fuel bus ser debug w) = Raise SerialException \/
     fst (continue_scan fuel bus ser debug w) = OutOfFuel).
Proof.
  induction fuel as [| fuel IH]; intros w.
  - exists []. simpl. rewrite app_nil_r. auto.
  - rewrite continue_scan_turn.
    destruct (exchange bus ser (written w) [xfd; x46; x02; x53; x91]) as [raw |].
    + cbv zeta.
      match goal with
      | |- context [process_response (Some (denoise raw)) debug ?w1] =>
          destruct (process_response_lines (denoise raw) debug w1) as (ls & El & Hl);
          set (w2 := snd (process_response (Some (denoise raw)) debug w1)) in *
      end.
      cbn [trace] in El.
      assert (Hpre : Forall (loop_event ser)
                (SerialWrite ser [xfd; x46; x02; x53; x91] :: SerialRead ser raw
                 :: map Print ls)).
      { constructor; [split; [reflexivity | symmetry; apply continue_command_bytes] |].
        constructor; [reflexivity |]. apply loop_event_prints, Hl. }
      destruct (stops (denoise raw)).
      * eexists. cbn [fst snd]. split; [| split; [exact Hpre | auto]].
        rewrite El, <- !app_assoc. reflexivity.
      * destruct (IH w2) as (ext & E & He & Ho).
        exists ((SerialWrite ser [xfd; x46; x02; x53; x91] :: SerialRead ser raw
                 :: map Print ls) ++ ext).
        split; [| split; [apply Forall_app; split; assumption | exact Ho]].
        rewrite E, El, <- !app_assoc. reflexivity.
    + exists [SerialWrite ser [xfd; x46; x02; x53; x91]]. cbn [fst snd trace].
      split; [reflexivity |]. split; [| auto].
      constructor; [| constructor].
      split; [reflexivity | symmetry; apply continue_command_bytes].
Qed.

Lemma session_events (bus : serial_bus) (ser : Z) (debug : bool) (fuel : nat)
    (w : world) :
  exists body,
    Forall (loop_event ser) body /\
    ((fst (session fuel bus debug ser w) = Ok tt /\
      trace (snd (session fuel bus debug ser w))
      = trace w ++ SerialWrite ser (command_bytes START_SCAN_SUBCOMMAND)
                   :: body ++ [SerialClose ser]) \/
     ((fst (session fuel bus debug ser w) = Raise SerialException \/
       fst (session fuel bus debug ser w) = OutOfFuel) /\
      trace (snd (session fuel bus debug ser w))
      = trace w ++ SerialWrite ser (command_bytes START_SCAN_SUBCOMMAND) :: body)).
Proof.
  rewrite session_start, start_command_bytes.
  destruct (exchange bus ser (written w) [xfd; x46; x01; x13; x90]) as [raw |].
  - cbv zeta.
    match goal with
    | |- context [process_response (Some (denoise raw)) debug ?w1] =>
        destruct (process_response_lines (denoise raw) debug w1) as (ls & El & Hl);
        set (w2 := snd (process_response (Some (denoise raw)) debug w1)) in *
    end.
    cbn [trace] in El.
    assert (Hpre : Forall (loop_event ser) (SerialRead ser raw :: map Print ls)).
    { constructor; [reflexivity | apply loop_event_prints, Hl]. }
    destruct (stops (denoise raw)).
    + exists (SerialRead ser raw :: map Print ls). split; [exact Hpre |].
      left. unfold serial_close, emit. cbn [fst snd trace].
      split; [reflexivity |]. rewrite El, <- !app_assoc. reflexivity.
    + destruct (continue_scan_events bus ser debug fuel w2) as (ext & E & He & Ho).
      exists ((SerialRead ser raw :: map Print ls) ++ ext).
      split; [apply Forall_app; split; assumption |].
      destruct (continue_scan fuel bus ser debug w2) as [[[] | e |] w3];
        cbn [fst snd] in E, Ho |- *.
      * left. unfold serial_close, emit. cbn [fst snd trace].
        split; [reflexivity |]. rewrite E, El, <- !app_assoc. reflexivity.
      * right. split.
        -- destruct Ho as [Ho | [Ho | Ho]]; try discriminate Ho. left. exact Ho.
        -- rewrite E, El, <- !app_assoc. reflexivity.
      * right. split; [right; reflexivity |].
        rewrite E, El, <- !app_assoc. reflexivity.
  - exists []. split; [constructor |]. right. cbn [fst snd trace]. auto.
Qed.

(** The events of one turn of the sweep. *)
Lemma scan_at_events (fuel : nat) (bus : serial_bus) (port : string)
    (debug : bool) (b : Z) (w : world) :
  exists ext,
    trace (snd (scan_at fuel bus port debug b w)) = trace w ++ ext /\
    rate_events port b (fst (scan_at fuel bus port debug b w)) ext /\
    (can_open bus port b = false ->
     ext = [Print (MsgScanning b); SerialOpen port b; Print (MsgPortError b)]).
Proof.
  destruct (can_open bus port b) eqn:Hopen.
  - rewrite scan_at_open by assumption.
    destruct (session_events bus b debug fuel (opened port b w))
      as (body & Hb & [[Ho E] | [Ho E]]);
      destruct (session fuel bus debug b (opened port b w)) as [o w1];
      cbn [fst snd] in Ho, E; unfold opened in E; cbn [trace] in E.
    + subst o. eexists. cbn [fst snd]. split; [| split; [| discriminate]].
      * rewrite E, <- app_assoc. reflexivity.
      * apply rate_session; [exact Hb | constructor].
    + destruct Ho as [-> | ->].
      * exists (Print (MsgScanning b) :: SerialOpen port b ::
                SerialWrite b (command_bytes START_SCAN_SUBCOMMAND) ::
                body ++ [Print (MsgPortError b)]).
        unfold print, emit. cbn [fst snd trace].
        split; [| split; [| discriminate]].
        -- rewrite E, <- !app_assoc. reflexivity.
        -- apply rate_session; [exact Hb | constructor].
      * exists (Print (MsgScanning b) :: SerialOpen port b ::
                SerialWrite b (command_bytes START_SCAN_SUBCOMMAND) ::
                body ++ []).
        cbn [fst snd]. split; [| split; [| discriminate]].
        -- rewrite E, app_nil_r, <- !app_assoc. reflexivity.
        -- apply rate_session; [exact Hb | constructor].
  - rewrite scan_at_closed by assumption. eexists. cbn [fst snd].
    split; [| split; [constructor | reflexivity]].
    unfold log, opened. cbn [trace map]. rewrite <- app_assoc. reflexivity.
Qed.

Lemma rate_events_outcome (port : string) (b : Z) (o : outcome unit)
    (ext : list event) :
  rate_events port b o ext -> o = Ok tt \/ o = OutOfFuel.
Proof.
  intros H. inversion H as [| o' body tail _ He]; subst; [auto |].
  inversion He; auto.
Qed.

Lemma for_each_scan_events (fuel : nat) (bus : serial_bus) (port : string)
    (debug : bool) (rates : list Z) :
  forall w, exists ext,
    trace (snd (for_each rates (scan_at fuel bus port debug) w)) = trace w ++ ext /\
    sweep_events port rates
      (fst (for_each rates (scan_at fuel bus port debug) w)) ext.
Proof.
  induction rates as [| b rest IH]; intros w.
  - exists []. simpl. rewrite app_nil_r. split; [reflexivity | constructor].
  - cbn [for_each]. unfold bind.
    destruct (scan_at_events fuel bus port debug b w) as (ext & E & Hr & _).
    destruct (rate_events_outcome _ _ _ _ Hr) as [Ho | Ho];
      destruct (scan_at fuel bus port debug b w) as [o w1];
      cbn [fst snd] in E, Hr, Ho; subst o.
    + destruct (IH w1) as (exts & E' & Hs).
      exists (ext ++ exts). split.
      * rewrite E', E, <- app_assoc. reflexivity.
      * apply sweep_next; assumption.
    + exists ext. cbn [fst snd]. split; [exact E |].
      apply sweep_running. exact Hr.
Qed.

Lemma main_events (fuel : nat) (bus : serial_bus) (port : string) (debug : bool)
    (w : world) :
  exists ext,
    trace (snd (main fuel bus port debug w)) = trace w ++ ext /\
    sweep_events port BAUD_RATES (fst (main fuel bus port debug w)) ext.
Proof. apply for_each_scan_events. Qed.


(** ** Commands written *)

Lemma loop_writes (ser b : Z) (body : list event) :
  Forall (loop_event ser) body ->
  (b <> ser -> written_at b body = []) /\
  exists k, written_at ser body = repeat (command_bytes CONTINUE_SCAN_SUBCOMMAND) k.
Proof.
  induction 1 as [| e body He _ [IH1 [k IH2]]].
  - split; [reflexivity | exists 0%nat; reflexivity].
  - destruct e as [l | p r | r c | r raw | r]; simpl in He; try contradiction;
      try (split; [exact IH1 | exists k; exact IH2]).
    destruct He as [-> ->]. split.
    + intros Hb. simpl. replace (ser =? b) with false
        by (symmetry; apply Z.eqb_neq; lia). apply IH1, Hb.
    + exists (S k). simpl. rewrite Z.eqb_refl, IH2. reflexivity.
Qed.

Lemma rate_end_writes (ser b : Z) (o : outcome unit) (tail : list event) :
  rate_end ser o tail -> written_at b tail = [].
Proof. intros H. inversion H; reflexivity. Qed.

Lemma rate_writes (port : string) (ser b : Z) (o : outcome unit)
    (ext : list event) :
  rate_events port ser o ext ->
  (b <> ser -> written_at b ext = []) /\
  (written_at ser ext = [] \/
   exists k, written_at ser ext
             = command_bytes START_SCAN_SUBCOMMAND
               :: repeat (command_bytes CONTINUE_SCAN_SUBCOMMAND) k).
Proof.
  intros H. inversion H as [| o' body tail Hb He]; subst.
  - split; [reflexivity | left; reflexivity].
  - destruct (loop_writes ser b body Hb) as [H1 _].
    destruct (loop_writes ser ser body Hb) as [_ [k H2]].
    split.
    + intros Hne. simpl.
      replace (ser =? b) with false by (symmetry; apply Z.eqb_neq; lia).
      simpl. rewrite written_at_app, (H1 Hne), (rate_end_writes _ _ _ _ He).
      reflexivity.
    + right. exists k. simpl. rewrite Z.eqb_refl. simpl.
      rewrite written_at_app, H2, (rate_end_writes _ _ _ _ He), app_nil_r.
      reflexivity.
Qed.

Lemma sweep_writes (port : string) (rates : list Z) (o : outcome unit)
    (ext : list event) (b : Z) :
  sweep_events port rates o ext ->
  NoDup rates ->
  (~ In b rates -> written_at b ext = []) /\
  (written_at b ext = [] \/
   exists k, written_at b ext
             = command_bytes START_SCAN_SUBCOMMAND
               :: repeat (command_bytes CONTINUE_SCAN_SUBCOMMAND) k).
Proof.
  induction 1 as [| x rest ext o exts Hr _ IH | x rest ext Hr]; intros Hnd.
  - split; [reflexivity | left; reflexivity].
  - inversion Hnd as [| ? ? Hx Hnd']; subst.
    destruct (IH Hnd') as [IH1 IH2].
    destruct (rate_writes port x b _ _ Hr) as [R1 _].
    destruct (rate_writes port x x _ _ Hr) as [_ R2].
    rewrite written_at_app. split.
    + intros Hb. simpl in Hb. rewrite R1, IH1; [reflexivity | tauto |].
      intros ->. tauto.
    + destruct (Z.eq_dec b x) as [-> | Hne].
      * rewrite IH1, app_nil_r by exact Hx. exact R2.
      * rewrite (R1 Hne). exact IH2.
  - destruct (rate_writes port x b _ _ Hr) as [R1 _].
    destruct (rate_writes port x x _ _ Hr) as [_ R2].
    split.
    + intros Hb. apply R1. simpl in Hb. intros ->. tauto.
    + destruct (Z.eq_dec b x) as [-> | Hne]; [exact R2 | left; apply R1, Hne].
Qed.

Lemma baud_rates_distinct : NoDup BAUD_RATES.
Proof.
  unfold BAUD_RATES.
  repeat (constructor; [simpl; intros H; repeat (destruct H as [H | H]; [discriminate H |]); exact H |]).
  constructor.
Qed.

(** X9.  In a run of [main], finished or not, the commands written at a
    rate are none at all, or the start-scan command FD 46 01 13 90 followed
    by continue-scan commands FD 46 02 53 91 only.  No other command, in
    particular no end-scan command, is ever written. *)
Theorem only_start_then_continue_is_written (fuel : nat) (bus : serial_bus)
    (port : string) (debug : bool) (b : Z) :
  command_bytes START_SCAN_SUBCOMMAND = [xfd; x46; x01; x13; x90] /\
  command_bytes CONTINUE_SCAN_SUBCOMMAND = [xfd; x46; x02; x53; x91] /\
  (written_at b (trace (snd (main fuel bus port debug initial_world))) = [] \/
   exists k,
     written_at b (trace (snd (main fuel bus port debug initial_world)))
     = command_bytes START_SCAN_SUBCOMMAND
       :: repeat (command_bytes CONTINUE_SCAN_SUBCOMMAND) k).
Proof.
  split; [apply start_command_bytes |]. split; [apply continue_command_bytes |].
  destruct (main_events fuel bus port debug initial_world) as (ext & E & Hs).
  rewrite E. cbn [initial_world trace app].
  apply (sweep_writes port BAUD_RATES _ ext b Hs baud_rates_distinct).
Qed.

(** ** Closing the port *)





(** ** Lines never printed *)

Lemma rate_never_not_a_response (port : string) (x : Z) (o : outcome unit)
    (ext : list event) :
  rate_events port x o ext -> ~ In (Print MsgNotAResponse) ext.
Proof.
  intros H. inversion H as [| o' body tail Hb He]; subst.
  - intros [E | [E | [E | []]]]; discriminate E.
  - intros [E | [E | [E | Hin]]]; try discriminate E.
    apply in_app_or in Hin. destruct Hin as [Hin | Hin].
    + rewrite Forall_forall in Hb. exact (Hb _ Hin).
    + inversion He; subst; simpl in Hin;
        repeat (destruct Hin as [Hin | Hin]; [discriminate Hin |]); exact Hin.
Qed.

Lemma sweep_never_not_a_response (port : string) (rates : list Z)
    (o : outcome unit) (ext : list event) :
  sweep_events port rates o ext -> ~ In (Print MsgNotAResponse) ext.
Proof.
  induction 1 as [| x rest ext o exts Hr _ IH | x rest ext Hr].
  - intros [].
  - intros H. apply in_app_or in H. destruct H as [H | H].
    + exact (rate_never_not_a_response _ _ _ _ Hr H).
    + exact (IH H).
  - exact (rate_never_not_a_response _ _ _ _ Hr).
Qed.

(** X11.  The first test of [parse_and_print_response] never fires in a
    run: [process_response] hands it an answer only after finding 03 in the
    third byte, so the line for an answer that is not a scan answer is never
    printed by [main]. *)
Theorem not_a_response_never_printed (fuel : nat) (bus : serial_bus)
    (port : string) (debug : bool) :
  ~ In (Print MsgNotAResponse)
       (trace (snd (main fuel bus port debug initial_world))).
Proof.
  destruct (main_events fuel bus port debug initial_world) as (ext & E & Hs).
  rewrite E. cbn [initial_world trace app].
  exact (sweep_never_not_a_response _ _ _ _ Hs).
Qed.

(** X12.  The events of a run of [main] come rate after rate in the order
    of [BAUD_RATES].  Each rate gives the announcement and the opening of
    the port, followed either by the port error alone (the port did not
    open), or by the start-scan command, then answers read, lines about them
    and continue-scan commands, and at the end the closing of the port or a
    port error; only the last rate reached may still be in its loop. *)
Theorem run_is_rate_after_rate (fuel : nat) (bus : serial_bus) (port : string)
    (debug : bool) :
  sweep_events port BAUD_RATES
    (fst (main fuel bus port debug initial_world))
    (trace (snd (main fuel bus port debug initial_world))).
Proof.
  destruct (main_events fuel bus port debug initial_world) as (ext & E & Hs).
  rewrite E. exact Hs.
Qed.

(** ** The debug flag *)

Lemma erase_debug_app (t u : list event) :
  erase_debug (t ++ u) = erase_debug t ++ erase_debug u.
Proof. unfold erase_debug. apply filter_app. Qed.

Lemma debug_twin_event (e : event) (n : nat) (w1 w2 : world) :
  erase_debug [e] = [e] ->
  debug_twin w1 w2 ->
  debug_twin {| device_counter := device_counter w1; written := n;
                trace := trace w1 ++ [e] |}
             {| device_counter := device_counter w2; written := n;
                trace := trace w2 ++ [e] |}.
Proof.
  intros He (Hc & Hw & Ht). unfold debug_twin. cbn [device_counter written trace].
  rewrite erase_debug_app, He, Ht. auto.
Qed.

Lemma debug_twin_process_response (r : list byte) (w1 w2 : world) :
  debug_twin w1 w2 ->
  fst (process_response (Some r) true w1) = fst (process_response (Some r) false w2) /\
  debug_twin (snd (process_response (Some r) true w1))
             (snd (process_response (Some r) false w2)).
Proof.
  intros (Hc & Hw & Ht). rewrite !process_response_classify.
  destruct (classify r); unfold conclude, log, reported, debug_twin, debug_lines;
    cbn [fst snd device_counter written trace map app];
    rewrite erase_debug_app, Ht, ?Hc;
    (split; [reflexivity |]); (split; [congruence |]); (split; [assumption |]);
    try reflexivity.
  unfold device_lines. destruct (device_counter w2 + 1 =? 1); reflexivity.
Qed.

Lemma debug_twin_continue_scan (bus : serial_bus) (ser : Z) (fuel : nat) :
  forall w1 w2,
    debug_twin w1 w2 ->
    fst (continue_scan fuel bus ser true w1) = fst (continue_scan fuel bus ser false w2) /\
    debug_twin (snd (continue_scan fuel bus ser true w1))
               (snd (continue_scan fuel bus ser false w2)).
Proof.
  induction fuel as [| fuel IH]; intros w1 w2 Hw.
  - split; [reflexivity | exact Hw].
  - rewrite !continue_scan_turn.
    destruct Hw as (Hc & Hn & Ht). rewrite Hn.
    destruct (exchange bus ser (written w2) [xfd; x46; x02; x53; x91]) as [raw |].
    + cbv zeta.
      match goal with
      | |- context [process_response (Some (denoise raw)) true ?a] =>
          match goal with
          | |- context [process_response (Some (denoise raw)) false ?b] =>
              assert (Hab : debug_twin a b)
          end
      end.
      { unfold debug_twin. cbn [device_counter written trace].
        rewrite !erase_debug_app, Ht. auto. }
      destruct (debug_twin_process_response (denoise raw) _ _ Hab) as [_ Hnext].
      destruct (stops (denoise raw)).
      * split; [reflexivity | exact Hnext].
      * apply IH, Hnext.
    + split; [reflexivity |]. unfold debug_twin. cbn [snd device_counter written trace].
      rewrite erase_debug_app, Ht. auto.
Qed.

Lemma debug_twin_session (bus : serial_bus) (ser : Z) (fuel : nat) (w1 w2 : world) :
  debug_twin w1 w2 ->
  fst (session fuel bus true ser w1) = fst (session fuel bus false ser w2) /\
  debug_twin (snd (session fuel bus true ser w1))
             (snd (session fuel bus false ser w2)).
Proof.
  intros Hw. rewrite !session_start.
  destruct Hw as (Hc & Hn & Ht). rewrite Hn.
  destruct (exchange bus ser (written w2) [xfd; x46; x01; x13; x90]) as [raw |].
  - cbv zeta.
    match goal with
    | |- context [process_response (Some (denoise raw)) true ?a] =>
        match goal with
        | |- context [process_response (Some (denoise raw)) false ?b] =>
            assert (Hab : debug_twin a b)
        end
    end.
    { unfold debug_twin. cbn [device_counter written trace].
      rewrite !erase_debug_app, Ht. auto. }
    destruct (debug_twin_process_response (denoise raw) _ _ Hab) as [_ Hnext].
    assert (Hclose : forall a b, debug_twin a b ->
              fst (serial_close ser a) = fst (serial_close ser b) /\
              debug_twin (snd (serial_close ser a)) (snd (serial_close ser b))).
    { intros a b Htw. split; [reflexivity |].
      unfold serial_close, emit. cbn [snd].
      destruct Htw as (Hc' & Hn' & Ht'). rewrite Hn'.
      apply debug_twin_event; [reflexivity |]. unfold debug_twin. auto. }
    destruct (stops (denoise raw)).
    + apply Hclose, Hnext.
    + destruct (debug_twin_continue_scan bus ser fuel _ _ Hnext) as [Ho Hl].
      destruct (continue_scan fuel bus ser true _) as [o1 a].
      destruct (continue_scan fuel bus ser false _) as [o2 b].
      cbn [fst snd] in Ho, Hl. subst o2.
      destruct o1 as [[] | e |]; [apply Hclose, Hl | auto | auto].
  - split; [reflexivity |]. unfold debug_twin. cbn [snd device_counter written trace].
    rewrite erase_debug_app, Ht. auto.
Qed.

Lemma debug_twin_scan_at (bus : serial_bus) (port : string) (fuel : nat)
    (b : Z) (w1 w2 : world) :
  debug_twin w1 w2 ->
  fst (scan_at fuel bus port true b w1) = fst (scan_at fuel bus port false b w2) /\
  debug_twin (snd (scan_at fuel bus port true b w1))
             (snd (scan_at fuel bus port false b w2)).
Proof.
  intros Hw.
  assert (Hopened : debug_twin (opened port b w1) (opened port b w2)).
  { destruct Hw as (Hc & Hn & Ht). unfold debug_twin, opened.
    cbn [device_counter written trace]. rewrite erase_debug_app, Ht. auto. }
  destruct (can_open bus port b) eqn:Hopen.
  - rewrite !scan_at_open by assumption.
    destruct (debug_twin_session bus b fuel _ _ Hopened) as [Ho Hs].
    destruct (session fuel bus true b (opened port b w1)) as [o1 a].
    destruct (session fuel bus false b (opened port b w2)) as [o2 c].
    cbn [fst snd] in Ho, Hs. subst o2.
    destruct o1 as [[] | [] |]; auto.
    split; [reflexivity |]. unfold print, emit. cbn [snd].
    destruct Hs as (Hc' & Hn' & Ht'). rewrite Hn'.
    apply debug_twin_event; [reflexivity |]. unfold debug_twin. auto.
  - rewrite !scan_at_closed by assumption. split; [reflexivity |].
    cbn [snd]. destruct Hopened as (Hc & Hn & Ht).
    unfold debug_twin, log. cbn [device_counter written trace map].
    rewrite erase_debug_app, Ht. auto.
Qed.

Lemma debug_twin_sweep (bus : serial_bus) (port : string) (fuel : nat)
    (rates : list Z) :
  forall w1 w2,
    debug_twin w1 w2 ->
    fst (for_each rates (scan_at fuel bus port true) w1)
    = fst (for_each rates (scan_at fuel bus port false) w2) /\
    debug_twin (snd (for_each rates (scan_at fuel bus port true) w1))
               (snd (for_each rates (scan_at fuel bus port false) w2)).
Proof.
  induction rates as [| b rest IH]; intros w1 w2 Hw.
  - split; [reflexivity | exact Hw].
  - cbn [for_each]. unfold bind.
    destruct (debug_twin_scan_at bus port fuel b _ _ Hw) as [Ho Hs].
    destruct (scan_at fuel bus port true b w1) as [o1 a].
    destruct (scan_at fuel bus port false b w2) as [o2 c].
    cbn [fst snd] in Ho, Hs. subst o2.
    destruct o1 as [[] | e |]; auto.
Qed.

(** X13.  The debug flag changes nothing but the debug lines: a run under
    [--debug] has the same outcome, the same device counter and, once its
    debug lines are taken out, the same trace (commands written, answers
    read, ports opened and closed, all other lines) as the run without the
    flag on the same bus. *)
Theorem debug_only_adds_lines (fuel : nat) (bus : serial_bus) (port : string) :
  fst (main fuel bus port true initial_world)
  = fst (main fuel bus port false initial_world) /\
  device_counter (snd (main fuel bus port true initial_world))
  = device_counter (snd (main fuel bus port false initial_world)) /\
  erase_debug (trace (snd (main fuel bus port true initial_world)))
  = trace (snd (main fuel bus port false initial_world)).
Proof.
  assert (H0 : debug_twin initial_world initial_world)
    by (unfold debug_twin; auto).
  destruct (debug_twin_sweep bus port fuel BAUD_RATES _ _ H0)
    as (Ho & Hc & _ & Ht).
  unfold main. auto.
Qed.

(** ** From the answers read to the table *)

(** X14.  A device answer FD 46 03, four serial-number bytes, one address
    byte and the two bytes of its CRC16 (low byte first) that holds no byte
    0xFF comes through the filter of [send_command] unchanged and is
    reported by [process_response] with the big-endian serial number and the
    address, under the next sequence number. *)
Theorem clean_device_answer_is_reported (s0 s1 s2 s3 a lo hi : byte)
    (debug : bool) (w : world) :
  Py.to_bytes_2_little (calculate_crc [xfd; x46; x03; s0; s1; s2; s3; a])
  = Ok [lo; hi] ->
  no_ff [xfd; x46; x03; s0; s1; s2; s3; a; lo; hi] ->
  denoise [xfd; x46; x03; s0; s1; s2; s3; a; lo; hi]
  = [xfd; x46; x03; s0; s1; s2; s3; a; lo; hi] /\
  fst (process_response
         (Some (denoise [xfd; x46; x03; s0; s1; s2; s3; a; lo; hi])) debug w)
  = Ok false /\
  devices (trace (snd (process_response
         (Some (denoise [xfd; x46; x03; s0; s1; s2; s3; a; lo; hi])) debug w)))
  = devices (trace w) ++ [(be32 s0 s1 s2 s3, byte_val a)] /\
  row_numbers (trace (snd (process_response
         (Some (denoise [xfd; x46; x03; s0; s1; s2; s3; a; lo; hi])) debug w)))
  = row_numbers (trace w) ++ [device_counter w + 1].
Proof.
  intros Et Hn.
  assert (Hc : crc_matches [xfd; x46; x03; s0; s1; s2; s3; a; lo; hi])
    by (apply (crc_tail_matches [xfd; x46; x03; s0; s1; s2; s3; a]), Et).
  assert (Hv : classify [xfd; x46; x03; s0; s1; s2; s3; a; lo; hi]
               = DeviceFound (be32 s0 s1 s2 s3) (byte_val a))
    by (apply classify_device; [exact Hc | reflexivity ..]).
  rewrite (denoise_fixed _ Hn). split; [reflexivity |].
  split; [| split].
  - rewrite process_response_classify, Hv. reflexivity.
  - rewrite process_response_devices, Hv. reflexivity.
  - rewrite process_response_classify, Hv.
    unfold conclude, reported. cbn [snd trace].
    rewrite row_numbers_app. f_equal.
    unfold row_numbers. rewrite map_app, flat_map_app. unfold device_lines.
    destruct debug; destruct (device_counter w + 1 =? 1); reflexivity.
Qed.

Lemma clean_device_answer_is_reported_witness :
  devices (trace (snd (process_response
         (Some (denoise [xfd; x46; x03; x00; x00; x01; x2c; x05; x24; x22]))
         true initial_world)))
  = devices (trace initial_world) ++ [(be32 x00 x00 x01 x2c, byte_val x05)].
Proof.
  apply (clean_device_answer_is_reported x00 x00 x01 x2c x05 x24 x22 true
           initial_world).
  - vm_compute. reflexivity.
  - repeat constructor; vm_compute; discriminate.
Defined.

Lemma decoded_reads_app (t u : list event) :
  decoded_reads (t ++ u) = decoded_reads t ++ decoded_reads u.
Proof. unfold decoded_reads. apply flat_map_app. Qed.

Lemma decoded_reads_prints (ls : list line) : decoded_reads (map Print ls) = [].
Proof. induction ls; simpl; auto. Qed.

(** The devices reported for an answer depend neither on the state nor on
    the debug flag. *)
Lemma process_response_decoded (raw : list byte) (debug : bool) (w : world) :
  exists ls,
    trace (snd (process_response (Some (denoise raw)) debug w))
    = trace w ++ map Print ls /\
    devices (map Print ls) = decoded raw.
Proof.
  unfold decoded. rewrite (process_response_devices (denoise raw) false initial_world).
  cbn [initial_world trace devices flat_map app].
  pose proof (process_response_devices (denoise raw) debug w) as Hd.
  rewrite process_response_classify in *.
  destruct (classify (denoise raw)); unfold conclude, log, reported in *;
    cbn [snd trace] in *; eexists; (split; [reflexivity |]);
    rewrite devices_app in Hd; apply app_inv_head in Hd; exact Hd.
Qed.

(** The answer read in one exchange and the lines about it. *)
Lemma exchange_reported (ser : Z) (command raw : list byte) (ls : list line) :
  devices (map Print ls) = decoded raw ->
  devices (SerialWrite ser command :: SerialRead ser raw :: map Print ls)
  = decoded_reads (SerialWrite ser command :: SerialRead ser raw :: map Print ls).
Proof.
  intros H. change (devices (map Print ls) = decoded raw ++ decoded_reads (map Print ls)).
  rewrite decoded_reads_prints, app_nil_r. exact H.
Qed.

Lemma continue_scan_reports_reads (bus : serial_bus) (ser : Z) (debug : bool)
    (fuel : nat) :
  forall w, exists ext,
    trace (snd (continue_scan fuel bus ser debug w)) = trace w ++ ext /\
    devices ext = decoded_reads ext.
Proof.
  induction fuel as [| fuel IH]; intros w.
  - exists []. simpl. rewrite app_nil_r. auto.
  - rewrite continue_scan_turn.
    destruct (exchange bus ser (written w) [xfd; x46; x02; x53; x91]) as [raw |].
    + cbv zeta.
      match goal with
      | |- context [process_response (Some (denoise raw)) debug ?w1] =>
          destruct (process_response_decoded raw debug w1) as (ls & El & Hl);
          set (w2 := snd (process_response (Some (denoise raw)) debug w1)) in *
      end.
      cbn [trace] in El.
      pose proof (exchange_reported ser [xfd; x46; x02; x53; x91] raw ls Hl) as Hx.
      destruct (stops (denoise raw)).
      * eexists. cbn [snd]. split; [| exact Hx].
        rewrite El, <- !app_assoc. reflexivity.
      * destruct (IH w2) as (ext & E & He).
        exists ((SerialWrite ser [xfd; x46; x02; x53; x91] :: SerialRead ser raw
                 :: map Print ls) ++ ext).
        split; [rewrite E, El, <- !app_assoc; reflexivity |].
        rewrite devices_app, decoded_reads_app, Hx, He. reflexivity.
    + exists [SerialWrite ser [xfd; x46; x02; x53; x91]]. cbn [snd trace]. auto.
Qed.

Lemma session_reports_reads (bus : serial_bus) (ser : Z) (debug : bool)
    (fuel : nat) (w : world) :
  exists ext,
    trace (snd (session fuel bus debug ser w)) = trace w ++ ext /\
    devices ext = decoded_reads ext.
Proof.
  rewrite session_start.
  destruct (exchange bus ser (written w) [xfd; x46; x01; x13; x90]) as [raw |].
  - cbv zeta.
    match goal with
    | |- context [process_response (Some (denoise raw)) debug ?w1] =>
        destruct (process_response_decoded raw debug w1) as (ls & El & Hl);
        set (w2 := snd (process_response (Some (denoise raw)) debug w1)) in *
    end.
    cbn [trace] in El.
    pose proof (exchange_reported ser [xfd; x46; x01; x13; x90] raw ls Hl) as Hx.
    destruct (stops (denoise raw)).
    + exists ((SerialWrite ser [xfd; x46; x01; x13; x90] :: SerialRead ser raw
               :: map Print ls) ++ [SerialClose ser]).
      unfold serial_close, emit. cbn [snd trace].
      split; [rewrite El, <- !app_assoc; reflexivity |].
      rewrite devices_app, decoded_reads_app, Hx. reflexivity.
    + destruct (continue_scan_reports_reads bus ser debug fuel w2) as (ext & E & He).
      destruct (continue_scan fuel bus ser debug w2) as [[[] | e |] w3];
        cbn [snd] in E.
      * exists ((SerialWrite ser [xfd; x46; x01; x13; x90] :: SerialRead ser raw
                 :: map Print ls) ++ ext ++ [SerialClose ser]).
        unfold serial_close, emit. cbn [snd trace].
        split; [rewrite E, El, <- !app_assoc; reflexivity |].
        rewrite !devices_app, !decoded_reads_app, Hx, He. reflexivity.
      * exists ((SerialWrite ser [xfd; x46; x01; x13; x90] :: SerialRead ser raw
                 :: map Print ls) ++ ext).
        cbn [snd]. split; [rewrite E, El, <- !app_assoc; reflexivity |].
        rewrite !devices_app, !decoded_reads_app, Hx, He. reflexivity.
      * exists ((SerialWrite ser [xfd; x46; x01; x13; x90] :: SerialRead ser raw
                 :: map Print ls) ++ ext).
        cbn [snd]. split; [rewrite E, El, <- !app_assoc; reflexivity |].
        rewrite !devices_app, !decoded_reads_app, Hx, He. reflexivity.
  - exists [SerialWrite ser [xfd; x46; x01; x13; x90]]. cbn [snd trace]. auto.
Qed.

Lemma scan_at_reports_reads (fuel : nat) (bus : serial_bus) (port : string)
    (debug : bool) (b : Z) (w : world) :
  exists ext,
    trace (snd (scan_at fuel bus port debug b w)) = trace w ++ ext /\
    devices ext = decoded_reads ext.
Proof.
  destruct (can_open bus port b) eqn:Hopen.
  - rewrite scan_at_open by assumption.
    destruct (session_reports_reads bus b debug fuel (opened port b w))
      as (ext & E & He).
    destruct (session fuel bus debug b (opened port b w)) as [[[] | [] |] w1];
      unfold opened in E; cbn [snd trace] in E |- *;
      try (exists ([Print (MsgScanning b); SerialOpen port b] ++ ext);
           split; [rewrite E, <- !app_assoc; reflexivity |];
           rewrite devices_app, decoded_reads_app, He; reflexivity).
    exists ([Print (MsgScanning b); SerialOpen port b] ++ ext
            ++ [Print (MsgPortError b)]).
    unfold print, emit. cbn [snd trace].
    split; [rewrite E, <- !app_assoc; reflexivity |].
    rewrite !devices_app, !decoded_reads_app, He. reflexivity.
  - rewrite scan_at_closed by assumption.
    exists [Print (MsgScanning b); SerialOpen port b; Print (MsgPortError b)].
    unfold log, opened. cbn [snd trace map].
    rewrite <- app_assoc. auto.
Qed.

(** X15.  The devices in the table of a run are exactly the devices decoded
    from the answers read from the port, in the order in which they were
    read: every answer read is handed to [process_response] once, and
    nothing else is reported. *)
Theorem table_is_the_answers_read (fuel : nat) (bus : serial_bus)
    (port : string) (debug : bool) :
  devices (trace (snd (main fuel bus port debug initial_world)))
  = decoded_reads (trace (snd (main fuel bus port debug initial_world))).
Proof.
  unfold main.
  assert (H : forall rates w, exists ext,
             trace (snd (for_each rates (scan_at fuel bus port debug) w))
             = trace w ++ ext /\ devices ext = decoded_reads ext).
  { induction rates as [| b rest IH]; intros w.
    - exists []. simpl. rewrite app_nil_r. auto.
    - cbn [for_each]. unfold bind.
      destruct (scan_at_reports_reads fuel bus port debug b w) as (ext & E & He).
      destruct (scan_at fuel bus port debug b w) as [[[] | e |] w1];
        cbn [snd] in E |- *; try (exists ext; auto; fail).
      destruct (IH w1) as (exts & E' & He').
      exists (ext ++ exts). split; [rewrite E', E, <- app_assoc; reflexivity |].
      rewrite devices_app, decoded_reads_app, He, He'. reflexivity. }
  destruct (H BAUD_RATES initial_world) as (ext & E & He).
  rewrite E. exact He.
Qed.

(** ** The checksum of a whole answer *)

Lemma lxor_low_byte (c : Z) : Z.lxor c (c mod 256) = 256 * (c / 256).
Proof.
  apply Z.bits_inj'. intros n Hn.
  rewrite Z.lxor_spec, Z.mul_comm.
  change 256 with (2 ^ 8).
  destruct (Z_lt_dec n 8) as [L | L].
  - rewrite Z.mod_pow2_bits_low by lia.
    rewrite Z.mul_pow2_bits_low by lia. apply xorb_nilpotent.
  - rewrite Z.mod_pow2_bits_high by lia.
    rewrite Z.mul_pow2_bits by lia.
    rewrite Z.div_pow2_bits by lia.
    rewrite xorb_false_r. f_equal. lia.
Qed.

Lemma crc_shift_even (k : Z) : crc_shift (2 * k) = k.
Proof.
  rewrite crc_shift_round. unfold Reference.round. cbv zeta.
  rewrite Z.odd_mul. cbn [Z.odd andb].
  rewrite Z.mul_comm, Z.div_mul by lia. reflexivity.
Qed.

Lemma shifts_of_high_byte (h : Z) : Nat.iter 8 crc_shift (256 * h) = h.
Proof.
  change (Nat.iter 8 crc_shift (256 * h))
    with (crc_shift (crc_shift (crc_shift (crc_shift (crc_shift (crc_shift
           (crc_shift (crc_shift (256 * h))))))))).
  replace (256 * h) with (2 * (2 * (2 * (2 * (2 * (2 * (2 * (2 * h)))))))) by lia.
  rewrite !crc_shift_even. reflexivity.
Qed.

Lemma shifts_zero_inv (x : Z) :
  0 <= x < 65536 -> Nat.iter 8 crc_shift x = 0 -> x = 0.
Proof.
  intros Hx E. apply (shifts_inj 8); [exact Hx | lia |].
  rewrite E. symmetry. exact (shifts_of_high_byte 0).
Qed.

Lemma lxor_times_256 (s q : Z) : Z.lxor (256 * s) (256 * q) = 256 * Z.lxor s q.
Proof.
  change 256 with (2 ^ 8). rewrite !(Z.mul_comm (2 ^ 8)).
  rewrite <- !Z.shiftl_mul_pow2 by lia. symmetry. apply Z.shiftl_lxor.
Qed.

(** After the two checksum bytes the accumulator is zero exactly when they
    are the low and the high byte of the accumulator before them. *)
Lemma crc_update_zero (s : Z) (b : byte) :
  0 <= s < 65536 -> (crc_update s b = 0 <-> s = byte_val b).
Proof.
  intros Hs. unfold crc_update. split.
  - intros E. apply shifts_zero_inv in E; [| apply lxor_byte_word, Hs].
    apply Z.lxor_eq, E.
  - intros ->. rewrite Z.lxor_nilpotent. exact (shifts_of_high_byte 0).
Qed.

Lemma crc_update_low (c h : Z) (a : byte) :
  0 <= c < 65536 -> 0 <= h < 256 ->
  (crc_update c a = h <-> byte_val a = c mod 256 /\ h = c / 256).
Proof.
  intros Hc Hh. pose proof (byte_val_range a) as Ha.
  pose proof (Z.mod_pos_bound c 256 ltac:(lia)) as Hm.
  assert (Hq : 0 <= c / 256 < 256).
  { split; [apply Z.div_pos; lia | apply Z.div_lt_upper_bound; lia]. }
  unfold crc_update. split.
  - intros E. rewrite <- (shifts_of_high_byte h) in E.
    apply shifts_inj in E; [| apply lxor_byte_word, Hc | lia].
    assert (Hx : Z.lxor (byte_val a) (c mod 256) = 256 * Z.lxor h (c / 256)).
    { rewrite <- lxor_times_256, <- E, <- lxor_low_byte.
      rewrite (Z.lxor_comm c (byte_val a)), Z.lxor_assoc.
      rewrite <- (Z.lxor_assoc c c), Z.lxor_nilpotent, Z.lxor_0_l. reflexivity. }
    assert (Hl : 0 <= Z.lxor (byte_val a) (c mod 256) < 256)
      by (apply (lxor_word 8); lia).
    assert (Hn : 0 <= Z.lxor h (c / 256)) by (apply Z.lxor_nonneg; lia).
    assert (Z0 : Z.lxor h (c / 256) = 0) by lia.
    rewrite Z0 in Hx. apply Z.lxor_eq in Z0, Hx. auto.
  - intros [Ea Eh]. rewrite Ea, lxor_low_byte, Eh. apply shifts_of_high_byte.
Qed.

(** After the two checksum bytes the accumulator is zero exactly when they
    are the low and the high byte of the accumulator before them. *)
Lemma crc_residue (c : Z) (a b : byte) :
  0 <= c < 65536 ->
  (crc_update (crc_update c a) b = 0 <-> byte_val a + 256 * byte_val b = c).
Proof.
  intros Hc. pose proof (byte_val_range a) as Ha. pose proof (byte_val_range b) as Hb.
  pose proof (Z.div_mod c 256 ltac:(lia)) as Hdm.
  pose proof (Z.mod_pos_bound c 256 ltac:(lia)) as Hm.
  rewrite (crc_update_zero _ b (crc_update_word c a Hc)).
  rewrite (crc_update_low c (byte_val b) a Hc Hb).
  split; intros H; [| split]; lia.
Qed.

(** X16.  The test of [process_response] on the checksum can be read on the
    whole answer: the declared checksum of an answer equals the one computed
    over the rest exactly when [calculate_crc] of the entire answer, checksum
    bytes included, is zero. *)
Theorem crc_of_valid_answer_is_zero (r : list byte) :
  crc_matches r <-> calculate_crc r = 0.
Proof.
  destruct (Nat.le_gt_cases 2 (length r)) as [L | L].
  - destruct (split_last2 r L) as (p & a & b & ->).
    rewrite crc_matches_app2.
    unfold calculate_crc at 2. rewrite fold_left_app. cbn [fold_left].
    fold (calculate_crc p). symmetry. apply crc_residue, calculate_crc_word.
  - destruct r as [| x [| y r]]; [| | simpl in L; lia].
    + split; intros H; vm_compute in H; discriminate H.
    + split.
      * intros H. apply crc_matchesb_iff in H. rewrite crc_one_byte in H.
        discriminate H.
      * intros H. exfalso. unfold calculate_crc in H. cbn [fold_left] in H.
        unfold crc_update in H.
        pose proof (byte_val_range x) as Hx.
        apply shifts_zero_inv in H; [| apply lxor_byte_word; lia].
        apply Z.lxor_eq in H. lia.
Qed.

(** * The sweep, rate by rate *)

(** ** How a session ends *)















